(** * GitHub trending scraper: fetch, parse, export

    A shallow embedding of [scraper.py] (class [GitHubTrendingScraper]) and of
    the driver in [app.py], with the facts the specification states about
    them.  The third-party calls the scraper makes (requests, BeautifulSoup
    with soupsieve, csv and os as of CPython 3.11) are modelled by their
    behaviour, each in a module of its own named after the library.  The
    tree builder of BeautifulSoup is a parameter: the facts hold for
    whatever tree it builds for a text, and for whatever text it
    rejects. *)

From Stdlib Require Import ZArith NArith Lia String Ascii List DecimalString.
From stdpp Require Import base option list numbers gmap.

Set Default Proof Using "Type".
Local Open Scope Z_scope.

(** ** Python values *)

(** A Python [str] is a sequence of Unicode code points. *)
Abbreviation str := (list N).

(** String literals of the source, as code points. *)
Definition py (s : string) : str := List.map N_of_ascii (list_ascii_of_string s).
Arguments py s%_string.

(** Exceptions the program can raise.  [SystemExit] carries its message;
    the errors of the file system the path of the call that failed;
    [UnicodeEncodeError] the character that cannot be encoded. *)
Inductive exn : Type :=
  | KeyError (key : str)
  | SystemExit (msg : str)
  | ParserRejectedMarkup (msg : str)
  | LocationParseError (msg : str)
  | FileNotFoundError (path : str)
  | FileExistsError (path : str)
  | IsADirectoryError (path : str)
  | NotADirectoryError (path : str)
  | UnicodeEncodeError (c : N)
  | CsvError (msg : str).

Inductive result (A : Type) : Type :=
  | Ok (a : A)
  | Raise (e : exn).
Arguments Ok {A} a.
Arguments Raise {A} e.

Definition bind {A B} (r : result A) (k : A -> result B) : result B :=
  match r with
  | Ok a => k a
  | Raise e => Raise e
  end.

Declare Scope py_scope.
Delimit Scope py_scope with py.
Notation "x <- r ; k" := (bind r (fun x => k))
  (at level 100, r at next level, right associativity) : py_scope.

Definition raises {A} (r : result A) : Prop := exists e, r = Raise e.

Module Py.

(** [str.isspace] on one code point (CPython's [_PyUnicode_IsWhitespace]);
    this is the set [str.strip()] removes and the regex class [\s] matches. *)
Definition isspace (c : N) : bool :=
  ((9 <=? c) && (c <=? 13) || (28 <=? c) && (c <=? 32) || (c =? 133)
   || (c =? 160) || (c =? 5760) || (8192 <=? c) && (c <=? 8202)
   || (c =? 8232) || (c =? 8233) || (c =? 8239) || (c =? 8287)
   || (c =? 12288))%N.

Fixpoint lstrip (s : str) : str :=
  match s with
  | [] => []
  | c :: s' => if isspace c then lstrip s' else s
  end.

Definition rstrip (s : str) : str := rev (lstrip (rev s)).

(** [s.strip()] *)
Definition strip (s : str) : str := rstrip (lstrip s).

Fixpoint is_prefix (p s : str) : bool :=
  match p, s with
  | [], _ => true
  | _ :: _, [] => false
  | a :: p', b :: s' => (a =? b)%N && is_prefix p' s'
  end.

(** [s.replace(old, new)] for a non-empty [old]: leftmost non-overlapping
    occurrences, scanning left to right.  [skip] counts the characters of an
    occurrence already replaced that are still to be passed over. *)
Fixpoint replace_from (old new : str) (skip : nat) (s : str) : str :=
  match s with
  | [] => []
  | c :: s' =>
      match skip with
      | S k => replace_from old new k s'
      | O =>
          if is_prefix old s
          then new ++ replace_from old new (length old - 1) s'
          else c :: replace_from old new 0 s'
      end
  end.

(** [s.replace(old, new)]; an empty [old] matches between all characters. *)
Definition replace (old new : str) (s : str) : str :=
  match old with
  | [] => new ++ flat_map (fun c => c :: new) s
  | _ :: _ => replace_from old new 0 s
  end.

(** [l[:stop]] for an integer [stop]: a negative [stop] counts from the
    end, and the bounds are clamped to the list. *)
Definition slice_to {A} (stop : Z) (l : list A) : list A :=
  if 0 <=? stop then take (Z.to_nat stop) l
  else take (Z.to_nat (Z.of_nat (length l) + stop)) l.

(** [util.lower] of soupsieve and the tag-name folding of html.parser:
    ASCII letters only. *)
Definition lower (s : str) : str :=
  List.map (fun c => if ((65 <=? c) && (c <=? 90))%N then (c + 32)%N else c) s.

(** The maximal runs of non-whitespace characters ([re.findall(r"\S+", s)]). *)
Fixpoint nonwhitespace_from (cur : str) (s : str) : list str :=
  match s with
  | [] => match cur with [] => [] | _ :: _ => [rev cur] end
  | c :: s' =>
      if isspace c
      then match cur with
           | [] => nonwhitespace_from [] s'
           | _ :: _ => rev cur :: nonwhitespace_from [] s'
           end
      else nonwhitespace_from (c :: cur) s'
  end.

Definition nonwhitespace (s : str) : list str := nonwhitespace_from [] s.

End Py.

(** ** BeautifulSoup: the document tree, [select] and [get_text] *)

Module Bs4.

(** The classes of string nodes of bs4. *)
Inductive string_class : Type :=
  | NavigableString | CData | Comment | Declaration | Doctype
  | ProcessingInstruction | Script | Stylesheet | TemplateString
  | RubyTextString | RubyParenthesisString.

(** A node of the tree: a string, or a tag with its attribute dictionary
    and its contents.  Attribute names are in lower case, as html.parser
    delivers them; attribute values are the strings of the markup, and the
    multi-valued [class] attribute is read as a whitespace-separated list
    (see [get_classes]). *)
#[warnings="-register-all"] Inductive node : Type :=
  | Str (cls : string_class) (text : str)
  | Tag (name : str) (attrs : gmap str str) (contents : list node).

(** A tag, as [select] hands it out. *)
Record element : Type := Element {
  el_name : str;
  el_attrs : gmap str str;
  el_contents : list node
}.

(** [Tag.DEFAULT_INTERESTING_STRING_TYPES = (NavigableString, CData)]:
    the strings [get_text] of an [a] tag collects. *)
Definition interesting (cls : string_class) : bool :=
  match cls with
  | NavigableString | CData => true
  | _ => false
  end.

(** The interesting strings among the descendants, in document order
    ([Tag._all_strings] before stripping). *)
Fixpoint node_strings (n : node) : list str :=
  match n with
  | Str cls s => if interesting cls then [s] else []
  | Tag _ _ contents => flat_map node_strings contents
  end.

Definition all_strings (e : element) : list str :=
  flat_map node_strings (el_contents e).

(** [tag.get_text()]: the strings joined with the empty separator. *)
Definition get_text (e : element) : str := concat (all_strings e).

(** [tag.get_text(strip=True)]: every string is stripped on its own, the
    ones that become empty are dropped, the rest are joined. *)
Definition get_text_strip (e : element) : str :=
  concat (List.filter (fun s => negb (bool_decide (s = [])))
                      (List.map Py.strip (all_strings e))).

(** [tag[key]] ([Tag.__getitem__]): a missing key is a [KeyError]. *)
Definition getitem (e : element) (key : str) : result str :=
  match el_attrs e !! key with
  | Some v => Ok v
  | None => Raise (KeyError key)
  end.

(** *** CSS selection (soupsieve), for selectors made of type and class
    tests joined by descendant combinators. *)

Record compound : Type := Compound {
  sel_tag : str;
  sel_classes : list str
}.

Definition get_classes (attrs : gmap str str) : list str :=
  match attrs !! py "class" with
  | Some v => Py.nonwhitespace v
  | None => []
  end.

Definition match_compound (c : compound) (name : str) (attrs : gmap str str) : bool :=
  bool_decide (Py.lower name = sel_tag c)
  && forallb (fun cl => bool_decide (cl ∈ get_classes attrs)) (sel_classes c).

(** [match_past_relations] for descendant combinators: [chain] lists the
    compounds to the left of the subject, nearest first; [ancestors] lists
    the enclosing tags, nearest first. *)
Fixpoint match_past (chain : list compound) (ancestors : list (str * gmap str str)) : bool :=
  match chain with
  | [] => true
  | c :: chain' =>
      (fix find (anc : list (str * gmap str str)) : bool :=
         match anc with
         | [] => false
         | p :: anc' =>
             (match_compound c (fst p) (snd p) && match_past chain' anc') || find anc'
         end) ancestors
  end.

(** A selector: the compound of the subject, then [chain] as above. *)
Definition matches (sel : list compound) (ancestors : list (str * gmap str str))
           (name : str) (attrs : gmap str str) : bool :=
  match sel with
  | [] => false
  | c :: chain => match_compound c name attrs && match_past chain ancestors
  end.

(** The matching tags below a node, the node included, in document order. *)
Fixpoint select_node (sel : list compound) (ancestors : list (str * gmap str str))
         (n : node) : list element :=
  match n with
  | Str _ _ => []
  | Tag name attrs contents =>
      (if matches sel ancestors name attrs then [Element name attrs contents] else [])
      ++ flat_map (select_node sel ((name, attrs) :: ancestors)) contents
  end.

(** [soup.select(sel)], the soup given by its top-level contents. *)
Definition select (sel : list compound) (soup : list node) : list element :=
  flat_map (select_node sel []) soup.

End Bs4.

(** ** The outside world: network, file system, console *)

Module Requests.

(** The subclasses of [requests.RequestException] the call can raise. *)
Inductive exception_class : Type :=
  | ConnectionError | ConnectTimeout | ReadTimeout | TooManyRedirects
  | HTTPError | OtherRequestException.

(** A [RequestException]; [exc_str] is what [str(error)] gives. *)
Record RequestException : Type := {
  exc_class : exception_class;
  exc_str : str
}.

Record Response : Type := {
  status_code : Z;
  reason : str;
  resp_url : str;
  text : str
}.

(** What one [requests.get(url, timeout=...)] does: it returns, it raises
    a [RequestException], or it lets another exception through (a
    [LocationParseError] of urllib3 for a URL it cannot parse). *)
Inductive attempt (A : Type) : Type :=
  | Done (a : A)
  | Failed (e : RequestException)
  | Escaped (e : exn).
Arguments Done {A} a.
Arguments Failed {A} e.
Arguments Escaped {A} e.

Definition and_then {A B} (a : attempt A) (k : A -> attempt B) : attempt B :=
  match a with
  | Done x => k x
  | Failed e => Failed e
  | Escaped e => Escaped e
  end.

(** [str(n)] for an integer. *)
Definition str_of_int (n : Z) : str := py (NilZero.string_of_int (Z.to_int n)).

(** [Response.raise_for_status]: an [HTTPError] for the statuses 400 to
    599, nothing otherwise. *)
Definition raise_for_status (r : Response) : attempt unit :=
  if (400 <=? status_code r) && (status_code r <? 500) then
    Failed {| exc_class := HTTPError;
              exc_str := str_of_int (status_code r) ++ py " Client Error: "
                         ++ reason r ++ py " for url: " ++ resp_url r |}
  else if (500 <=? status_code r) && (status_code r <? 600) then
    Failed {| exc_class := HTTPError;
              exc_str := str_of_int (status_code r) ++ py " Server Error: "
                         ++ reason r ++ py " for url: " ++ resp_url r |}
  else Done tt.

End Requests.

(** The state a run can observe or change.  [net url timeout] is the outcome
    of a GET of [url]; [files] maps the regular files to their text, as the
    code points the utf-8 codec gives back, and [dirs] holds the
    directories, each entry under its path from the root or from the
    working directory (see [Os.key]); [stdout] holds the lines printed;
    [page] the elements the calls of [st.success] and [st.markdown] have
    put on the page (what streamlit itself adds to the page, the report of
    an uncaught exception included, is not recorded). *)
Record world : Type := World {
  net : str -> Z -> Requests.attempt Requests.Response;
  files : gmap str str;
  dirs : gset str;
  stdout : list str;
  page : list str
}.

(** Programs with effects: a result and the world they leave.  An exception
    ends the program where it is raised. *)
Definition io (A : Type) : Type := world -> result A * world.

Definition io_ret {A} (a : A) : io A := fun w => (Ok a, w).
Definition io_raise {A} (e : exn) : io A := fun w => (Raise e, w).
Definition io_lift {A} (r : result A) : io A := fun w => (r, w).
Definition io_bind {A B} (m : io A) (k : A -> io B) : io B :=
  fun w => match m w with
           | (Ok a, w') => k a w'
           | (Raise e, w') => (Raise e, w')
           end.

Declare Scope io_scope.
Delimit Scope io_scope with io.
Notation "x <- m ;; k" := (io_bind m (fun x => k))
  (at level 100, m at next level, right associativity) : io_scope.
Notation "m ;; k" := (io_bind m (fun _ => k))
  (at level 100, right associativity) : io_scope.

Module Os.

(** [os.path.join(a, b)] (posixpath). *)
Definition path_join (a b : str) : str :=
  if Py.is_prefix (py "/") b then b
  else if bool_decide (a = []) || bool_decide (last a = Some 47%N) then a ++ b
  else a ++ py "/" ++ b.

Definition is_slash (c : N) : bool := (c =? 47)%N.

(** [p[:i], p[i:]] for [i = p.rfind("/") + 1]. *)
Fixpoint cut_last_slash (p : str) : str * str :=
  match p with
  | [] => ([], [])
  | c :: p' =>
      let (h, t) := cut_last_slash p' in
      if is_slash c || negb (bool_decide (h = [])) then (c :: h, t) else ([], c :: t)
  end.

(** [s.rstrip("/")] *)
Fixpoint rstrip_slash (s : str) : str :=
  match s with
  | [] => []
  | c :: s' =>
      match rstrip_slash s' with
      | [] => if is_slash c then [] else [c]
      | r => c :: r
      end
  end.

(** [os.path.split(p)] (posixpath): the head keeps its slashes only when it
    is made of slashes. *)
Definition split (p : str) : str * str :=
  let (head, tail) := cut_last_slash p in
  (if forallb is_slash head then head else rstrip_slash head, tail).

(** *** The file system.

    A path is resolved as the kernel does it, one component after the
    other.  There are no symbolic links and no permissions; the working
    directory, the directories above it and the root exist, and no path
    of the world leads into the working directory from outside. *)

(** The text between the slashes of a path ([p.split("/")]). *)
Fixpoint segments (p : str) : list str :=
  match p with
  | [] => [[]]
  | c :: p' =>
      if is_slash c then [] :: segments p'
      else match segments p' with
           | s :: rest => (c :: s) :: rest
           | [] => [[c]]
           end
  end.

(** The components of a path: the non-empty segments. *)
Definition components (p : str) : list str :=
  List.filter (fun s => negb (bool_decide (s = []))) (segments p).

Definition is_abs (p : str) : bool := Py.is_prefix (py "/") p.

(** A component that names an entry of its directory: not [.] and not [..]. *)
Definition ordinary (c : str) : bool :=
  negb (bool_decide (c = py ".")) && negb (bool_decide (c = py "..")).

(** Where one component leads from the directory [stack] (its names,
    innermost first): [.] stays, [..] goes up (the root is its own parent;
    above the working directory the [..] are kept), a name goes down. *)
Definition enter (abs : bool) (stack : list str) (c : str) : list str :=
  if bool_decide (c = py ".") then stack
  else if bool_decide (c = py "..") then
    match stack with
    | [] => if abs then [] else [c]
    | top :: rest => if bool_decide (top = py "..") then c :: stack else rest
    end
  else c :: stack.

Fixpoint join_slash (names : list str) : str :=
  match names with
  | [] => []
  | [n] => n
  | n :: rest => n ++ py "/" ++ join_slash rest
  end.

(** The path an entry is kept under in [files] and [dirs]. *)
Definition spell (abs : bool) (stack : list str) : str :=
  (if abs then py "/" else []) ++ join_slash (rev stack).

(** The entry a path names, whatever is there. *)
Definition key (p : str) : str :=
  spell (is_abs p) (fold_left (enter (is_abs p)) (components p) []).

(** What a path leads to: nothing, a regular file where a directory is
    needed, a regular file, a directory. *)
Inductive entry : Type :=
  | Missing
  | NotDir
  | File (k : str)
  | Dir (stack : list str).

(** Going down the directories [comps] from the directory [stack]. *)
Fixpoint descend (w : world) (abs : bool) (stack : list str) (comps : list str) : entry :=
  match comps with
  | [] => Dir stack
  | c :: rest =>
      let stack' := enter abs stack c in
      if negb (ordinary c) || bool_decide (spell abs stack' ∈ dirs w)
      then descend w abs stack' rest
      else if bool_decide (is_Some (files w !! spell abs stack')) then NotDir
      else Missing
  end.

(** [os.stat(path)]: a path that ends in a slash names a directory. *)
Definition stat (path : str) (w : world) : entry :=
  if bool_decide (path = []) then Missing
  else match descend w (is_abs path) [] (removelast (components path)) with
       | Dir stack =>
           match last (components path) with
           | None => Dir stack
           | Some c =>
               let stack' := enter (is_abs path) stack c in
               if negb (ordinary c) || bool_decide (spell (is_abs path) stack' ∈ dirs w)
               then Dir stack'
               else if bool_decide (is_Some (files w !! spell (is_abs path) stack'))
               then if bool_decide (last path = Some 47%N) then NotDir
                    else File (spell (is_abs path) stack')
               else Missing
           end
       | other => other
       end.

(** [os.path.exists(path)] *)
Definition path_exists (path : str) (w : world) : bool :=
  match stat path w with
  | File _ | Dir _ => true
  | Missing | NotDir => false
  end.

(** [os.path.isdir(path)] *)
Definition path_isdir (path : str) (w : world) : bool :=
  match stat path w with
  | Dir _ => true
  | _ => false
  end.

(** [os.mkdir(path)]: the directory above must be there, the entry must
    not. *)
Definition mkdir (path : str) : io unit := fun w =>
  if bool_decide (path = []) then (Raise (FileNotFoundError path), w)
  else match descend w (is_abs path) [] (removelast (components path)) with
       | Dir stack =>
           match last (components path) with
           | None => (Raise (FileExistsError path), w)
           | Some c =>
               let k := spell (is_abs path) (enter (is_abs path) stack c) in
               if negb (ordinary c) || bool_decide (k ∈ dirs w)
                  || bool_decide (is_Some (files w !! k))
               then (Raise (FileExistsError path), w)
               else (Ok tt, World (net w) (files w) ({[k]} ∪ dirs w) (stdout w) (page w))
           end
       | Missing => (Raise (FileNotFoundError path), w)
       | _ => (Raise (NotADirectoryError path), w)
       end.

(** The end of [os.makedirs(name, exist_ok=True)]: [mkdir(name)], an
    [OSError] of which is let through unless [name] is a directory. *)
Definition mkdir_exist_ok (name : str) : io unit := fun w =>
  match mkdir name w with
  | (Ok _, w') => (Ok tt, w')
  | (Raise e, w') => if path_isdir name w' then (Ok tt, w') else (Raise e, w')
  end.

(** The head and the tail [os.makedirs] works with: those of [name], or
    those of its head when [name] ends in a slash. *)
Definition head_tail (name : str) : str * str :=
  let (head, tail) := split name in
  if bool_decide (tail = []) then split head else (head, tail).

(** [os.makedirs(name, exist_ok=True)], [fuel] bounding the depth of the
    recursion: when the head of [name] does not exist it is made first,
    a [FileExistsError] of this being passed over, and nothing more is
    done when the tail is [.]. *)
Fixpoint makedirs_at (fuel : nat) (name : str) : io unit := fun w =>
  let (head, tail) := head_tail name in
  match fuel with
  | S fuel' =>
      if negb (bool_decide (head = [])) && negb (bool_decide (tail = []))
         && negb (path_exists head w)
      then match makedirs_at fuel' head w with
           | (Ok _, w') | (Raise (FileExistsError _), w') =>
               if bool_decide (tail = py ".") then (Ok tt, w')
               else mkdir_exist_ok name w'
           | (Raise e, w') => (Raise e, w')
           end
      else mkdir_exist_ok name w
  | O => mkdir_exist_ok name w
  end.

(** The head of a path is shorter than the path, so the length of [name]
    is fuel enough. *)
Definition makedirs (name : str) : io unit := makedirs_at (length name) name.

(** [open(path, "w", newline="", encoding="utf-8")]: the directory above
    must be there, and the path must not name a directory; the file is
    created, or emptied.  The handle returned is the key of the file. *)
Definition open_w (path : str) : io str := fun w =>
  if bool_decide (path = []) then (Raise (FileNotFoundError path), w)
  else match descend w (is_abs path) [] (removelast (components path)) with
       | Dir stack =>
           match last (components path) with
           | None => (Raise (IsADirectoryError path), w)
           | Some c =>
               let k := spell (is_abs path) (enter (is_abs path) stack c) in
               if negb (ordinary c) || bool_decide (last path = Some 47%N)
                  || bool_decide (k ∈ dirs w)
               then (Raise (IsADirectoryError path), w)
               else (Ok k, World (net w) (<[k := []]> (files w)) (dirs w)
                                 (stdout w) (page w))
           end
       | Missing => (Raise (FileNotFoundError path), w)
       | _ => (Raise (NotADirectoryError path), w)
       end.

(** A character the utf-8 codec encodes: any code point but a surrogate. *)
Definition encodable (c : N) : bool :=
  ((c <? 55296) || (57343 <? c) && (c <=? 1114111))%N.

(** [file.write(data)] on a handle opened for writing: the text is encoded
    as a whole, and nothing of it is written when a character cannot be
    encoded. *)
Definition write (file : str) (data : str) : io unit := fun w =>
  match List.find (fun c => negb (encodable c)) data with
  | Some c => (Raise (UnicodeEncodeError c), w)
  | None =>
      (Ok tt, World (net w) (<[file := default [] (files w !! file) ++ data]> (files w))
                    (dirs w) (stdout w) (page w))
  end.

(** [open(path, newline="", encoding="utf-8").read()] *)
Definition read_text (path : str) (w : world) : result str :=
  match stat path w with
  | File k =>
      match files w !! k with
      | Some content => Ok content
      | None => Raise (FileNotFoundError path)
      end
  | Dir _ => Raise (IsADirectoryError path)
  | NotDir => Raise (NotADirectoryError path)
  | Missing => Raise (FileNotFoundError path)
  end.

(** The builtin [print(line)], kept here with the other effects. *)
Definition print (line : str) : io unit := fun w =>
  (Ok tt, World (net w) (files w) (dirs w) (stdout w ++ [line]) (page w)).

(** The lines of a text opened with [newline=""]: a line ends after
    ["\n"], after ["\r\n"], or after a ["\r"] that no ["\n"] follows, and
    keeps its ending.  [line] is the line read so far and [cr] tells that
    it ends in ["\r"]. *)
Fixpoint readlines_from (line : str) (cr : bool) (s : str) : list str :=
  match s with
  | [] => match line with [] => [] | _ :: _ => [line] end
  | c :: s' =>
      if (c =? 10)%N then (line ++ [c]) :: readlines_from [] false s'
      else if cr then line :: readlines_from [c] (c =? 13)%N s'
      else readlines_from (line ++ [c]) (c =? 13)%N s'
  end.

Definition readlines (s : str) : list str := readlines_from [] false s.

End Os.

(** ** The csv module, excel dialect *)

Module Csv.

Definition delimiter : N := 44.   (* "," *)
Definition quotechar : N := 34.   (* the double quote *)
Definition CR : N := 13.
Definition LF : N := 10.
Definition lineterminator : str := [CR; LF].

(** *** Writer ([QUOTE_MINIMAL], [doublequote]) *)

(** The characters that force a field into quotes. *)
Definition special (c : N) : bool :=
  ((c =? delimiter) || (c =? quotechar) || (c =? LF) || (c =? CR))%N.

(** [join_append_data]: the field as written, quotes doubled. *)
Definition join_append (field : str) : str :=
  if existsb special field
  then [quotechar]
       ++ flat_map (fun c => if (c =? quotechar)%N then [quotechar; quotechar] else [c]) field
       ++ [quotechar]
  else field.

Fixpoint join_fields (fields : list str) : str :=
  match fields with
  | [] => []
  | [f] => join_append f
  | f :: rest => join_append f ++ [delimiter] ++ join_fields rest
  end.

(** The text of one record; a record of one empty field is written as a
    pair of quotes. *)
Definition record_text (row : list str) : str :=
  (if bool_decide (row = [[]]) then [quotechar; quotechar] else join_fields row)
  ++ lineterminator.

(** [csv.writer(file).writerow(row)] *)
Definition writerow (file : str) (row : list str) : io unit :=
  Os.write file (record_text row).

(** [csv.writer(file).writerows(rows)] *)
Fixpoint writerows (file : str) (rows : list (list str)) : io unit :=
  match rows with
  | [] => io_ret tt
  | row :: rest => (writerow file row ;; writerows file rest)%io
  end.

(** *** Reader *)

Inductive parser_state : Type :=
  | START_RECORD | START_FIELD | IN_FIELD | IN_QUOTED_FIELD
  | QUOTE_IN_QUOTED_FIELD | EAT_CRNL.

Definition parser_state_eqb (a b : parser_state) : bool :=
  match a, b with
  | START_RECORD, START_RECORD | START_FIELD, START_FIELD | IN_FIELD, IN_FIELD
  | IN_QUOTED_FIELD, IN_QUOTED_FIELD
  | QUOTE_IN_QUOTED_FIELD, QUOTE_IN_QUOTED_FIELD | EAT_CRNL, EAT_CRNL => true
  | _, _ => false
  end.

(** The reader object: the state of the parser, the characters of the
    field being read, the fields of the record being read. *)
Record reader_obj : Type := Reader {
  state : parser_state;
  field : str;
  fields : list str
}.

(** What the parser is fed: a character of a line, or the end of a line. *)
Inductive input : Type :=
  | Char (c : N)
  | EOL.

Definition parse_reset : reader_obj := Reader START_RECORD [] [].

(** [csv.field_size_limit()] *)
Definition field_limit : Z := 131072.

(** [parse_add_char]: a field that already has [field_limit] characters
    takes no more. *)
Definition parse_add_char (r : reader_obj) (c : N) : result reader_obj :=
  if field_limit <=? Z.of_nat (length (field r))
  then Raise (CsvError (py "field larger than field limit (131072)"))
  else Ok (Reader (state r) (field r ++ [c]) (fields r)).

Definition parse_save_field (r : reader_obj) : reader_obj :=
  Reader (state r) [] (fields r ++ [field r]).

Definition set_state (s : parser_state) (r : reader_obj) : reader_obj :=
  Reader s (field r) (fields r).

Definition is_newline (c : N) : bool := ((c =? LF) || (c =? CR))%N.

(** The case [START_FIELD] of [parse_process_char]. *)
Definition start_field (r : reader_obj) (c : input) : result reader_obj :=
  match c with
  | EOL => Ok (set_state START_RECORD (parse_save_field r))
  | Char c =>
      if is_newline c then Ok (set_state EAT_CRNL (parse_save_field r))
      else if (c =? quotechar)%N then Ok (set_state IN_QUOTED_FIELD r)
      else if (c =? delimiter)%N then Ok (parse_save_field r)
      else (r' <- parse_add_char r c; Ok (set_state IN_FIELD r'))%py
  end.

(** [parse_process_char]: the state machine of [csv.reader], the standard
    reader of the tables [csv.writer] writes, for the dialect the writer
    uses (no escape character, [doublequote], not [strict], no
    initial-space skipping). *)
Definition parse_process_char (r : reader_obj) (c : input) : result reader_obj :=
  match state r with
  | START_RECORD =>
      match c with
      | EOL => Ok r
      | Char c' =>
          if is_newline c' then Ok (set_state EAT_CRNL r)
          else start_field (set_state START_FIELD r) c
      end
  | START_FIELD => start_field r c
  | IN_FIELD =>
      match c with
      | EOL => Ok (set_state START_RECORD (parse_save_field r))
      | Char c =>
          if is_newline c then Ok (set_state EAT_CRNL (parse_save_field r))
          else if (c =? delimiter)%N then Ok (set_state START_FIELD (parse_save_field r))
          else parse_add_char r c
      end
  | IN_QUOTED_FIELD =>
      match c with
      | EOL => Ok r
      | Char c =>
          if (c =? quotechar)%N then Ok (set_state QUOTE_IN_QUOTED_FIELD r)
          else parse_add_char r c
      end
  | QUOTE_IN_QUOTED_FIELD =>
      match c with
      | EOL => Ok (set_state START_RECORD (parse_save_field r))
      | Char c =>
          if (c =? quotechar)%N
          then (r' <- parse_add_char r c; Ok (set_state IN_QUOTED_FIELD r'))%py
          else if (c =? delimiter)%N then Ok (set_state START_FIELD (parse_save_field r))
          else if is_newline c then Ok (set_state EAT_CRNL (parse_save_field r))
          else (r' <- parse_add_char r c; Ok (set_state IN_FIELD r'))%py
      end
  | EAT_CRNL =>
      match c with
      | EOL => Ok (set_state START_RECORD r)
      | Char c =>
          if is_newline c then Ok r
          else Raise (CsvError (py "new-line character seen in unquoted field - do you need to open the file with newline=''?"))
      end
  end.

Fixpoint parse_chars (r : reader_obj) (line : str) : result reader_obj :=
  match line with
  | [] => Ok r
  | c :: line' => (r' <- parse_process_char r (Char c); parse_chars r' line')%py
  end.

(** One line through the parser: its characters, then the end of line. *)
Definition parse_line (r : reader_obj) (line : str) : result reader_obj :=
  (r' <- parse_chars r line; parse_process_char r' EOL)%py.

(** [list(csv.reader(lines))]: a record is complete when a line leaves the
    parser in [START_RECORD]; the parser is reset before each record; when
    the lines run out inside a record, the record read so far is kept. *)
Fixpoint reader_from (r : reader_obj) (lines : list str) : result (list (list str)) :=
  match lines with
  | [] =>
      if negb (bool_decide (field r = [])) || parser_state_eqb (state r) IN_QUOTED_FIELD
      then Ok [fields (parse_save_field r)]
      else Ok []
  | line :: rest =>
      (r' <- parse_line r line;
       if parser_state_eqb (state r') START_RECORD
       then (rows <- reader_from parse_reset rest; Ok (fields r' :: rows))
       else reader_from r' rest)%py
  end.

Definition reader (lines : list str) : result (list (list str)) :=
  reader_from parse_reset lines.

End Csv.

(** Reading a table back: [list(csv.reader(open(path, newline="")))]. *)
Definition read_table (w : world) (path : str) : result (list (list str)) :=
  (content <- Os.read_text path w;
   Csv.reader (Os.readlines content))%py.

(** ** scraper.py *)

Record GitHubTrendingScraper : Type := Scraper {
  url : str;
  output_dir : str;
  output_file : str;
  max_repos : Z
}.

(** [GitHubTrendingScraper.__init__] *)
Definition init (url output_dir : str) (max_repos : Z) : GitHubTrendingScraper :=
  Scraper url output_dir (Os.path_join output_dir (py "trending_repos.csv")) max_repos.

(** [GitHubTrendingScraper()], with the default arguments. *)
Definition default_scraper : GitHubTrendingScraper :=
  init (py "https://github.com/trending") (py "data") 5.

(** [fetch_html] *)
Definition fetch_html (self : GitHubTrendingScraper) : io str := fun w =>
  match Requests.and_then (net w (url self) 10) (fun response =>
        Requests.and_then (Requests.raise_for_status response) (fun _ =>
        Requests.Done (Requests.text response)))
  with
  | Requests.Done html => (Ok html, w)
  | Requests.Failed error =>
      (Raise (SystemExit (py "Failed to fetch data: " ++ Requests.exc_str error)), w)
  | Requests.Escaped e => (Raise e, w)
  end.

(** The selector ["article.Box-row h2.h3 a"], parsed: the subject first,
    then the enclosing compounds, nearest first. *)
Definition selector : list Bs4.compound :=
  [ Bs4.Compound (py "a") [];
    Bs4.Compound (py "h2") [py "h3"];
    Bs4.Compound (py "article") [py "Box-row"] ].

(** The body of the loop of [parse_repositories]: the name and the link of
    one anchor. *)
Definition repository_of (anchor : Bs4.element) : result (str * str) :=
  (let name := Py.replace (py " ") (py "") (Bs4.get_text_strip anchor) in
   href <- Bs4.getitem anchor (py "href");
   let link := py "https://github.com" ++ href in
   Ok (name, link))%py.

(** The loop of [parse_repositories], [repositories] being the list built
    so far. *)
Fixpoint parse_anchors (anchors : list Bs4.element) (repositories : list (str * str))
  : result (list (str * str)) :=
  match anchors with
  | [] => Ok repositories
  | anchor :: rest =>
      (repo <- repository_of anchor;
       parse_anchors rest (repositories ++ [repo]))%py
  end.

(** The anchors the loop of [parse_repositories] runs over, [soup] being
    the tree built for the text. *)
Definition anchors_of (self : GitHubTrendingScraper) (soup : list Bs4.node)
  : list Bs4.element :=
  Py.slice_to (max_repos self) (Bs4.select selector soup).

Section Scraper.

(** [BeautifulSoup(html, "html.parser")]: the tree the parser builds for a
    text, given by its top-level contents, or the exception it raises for
    a text it rejects ([ParserRejectedMarkup]). *)
Variable BeautifulSoup : str -> result (list Bs4.node).

(** [parse_repositories] *)
Definition parse_repositories (self : GitHubTrendingScraper) (html : str)
  : result (list (str * str)) :=
  (soup <- BeautifulSoup html;
   let anchors := anchors_of self soup in
   parse_anchors anchors [])%py.

(** [export_to_csv] *)
Definition export_to_csv (self : GitHubTrendingScraper) (repos : list (str * str)) : io unit :=
  (Os.makedirs (output_dir self) ;;
   file <- Os.open_w (output_file self) ;;
   Csv.writerow file [py "Repository Name"; py "Repository Link"] ;;
   Csv.writerows file (List.map (fun repo => [fst repo; snd repo]) repos))%io.

(** [run] *)
Definition run (self : GitHubTrendingScraper) : io unit :=
  (html <- fetch_html self ;;
   repos <- io_lift (parse_repositories self html) ;;
   export_to_csv self repos ;;
   Os.print (py "Scraped top " ++ Requests.str_of_int (max_repos self)
             ++ py " repositories to: " ++ output_file self))%io.

(** ** app.py *)

Definition st_show (line : str) : io unit := fun w =>
  (Ok tt, World (net w) (files w) (dirs w) (stdout w) (page w ++ [line])).

Fixpoint st_markdown_all (repos : list (str * str)) : io unit :=
  match repos with
  | [] => io_ret tt
  | (name, link) :: rest =>
      (st_show (py "- [" ++ name ++ py "](" ++ link ++ py ")") ;;
       st_markdown_all rest)%io
  end.

(** What a press of the button does.  An exception leaves the script
    uncaught; what streamlit then shows is not part of [page]. *)
Definition on_button : io unit :=
  (let scraper := default_scraper in
   html <- fetch_html scraper ;;
   repos <- io_lift (parse_repositories scraper html) ;;
   export_to_csv scraper repos ;;
   st_show (py "Scraping completed. Top trending repositories:") ;;
   st_markdown_all repos)%io.

End Scraper.

(** * Vocabulary of the properties *)

(** ** What the statements speak of *)

Definition not_space (c : N) : bool := negb (c =? 32)%N.

(** An anchor that carries an [href]. *)
Definition has_href (anchor : Bs4.element) : bool :=
  match Bs4.el_attrs anchor !! py "href" with
  | Some _ => true
  | None => false
  end.

(** The name as the specification words it: the text content of the link,
    trimmed at both ends, with the space characters removed. *)
Definition name_by_spec (anchor : Bs4.element) : str :=
  List.filter not_space (Py.strip (Bs4.get_text anchor)).

Definition header : list str := [py "Repository Name"; py "Repository Link"].

Definition rows_of (repos : list (str * str)) : list (list str) :=
  List.map (fun repo => [fst repo; snd repo]) repos.

Definition table_text (table : list (list str)) : str :=
  concat (List.map Csv.record_text table).

(** A field the reader takes: one within the field size limit. *)
Definition within_limit (f : str) : bool :=
  Z.of_nat (length f) <=? Csv.field_limit.

(** Entries the reader takes. *)
Definition repos_within_limit (repos : list (str * str)) : bool :=
  forallb (fun repo => within_limit (fst repo) && within_limit (snd repo)) repos.

(** ** The file system *)

(** An entry, file or directory, is kept under the key [k]. *)
Definition exists_at (w : world) (k : str) : Prop :=
  k ∈ dirs w \/ is_Some (files w !! k).

(** Every entry the components [comps] name on their way from the
    directory [stack] is there. *)
Fixpoint covered (w : world) (abs : bool) (stack : list str) (comps : list str) : Prop :=
  match comps with
  | [] => True
  | c :: rest =>
      (Os.ordinary c = true -> exists_at w (Os.spell abs (Os.enter abs stack c)))
      /\ covered w abs (Os.enter abs stack c) rest
  end.

(** [w'] is [w] with more directories, each new one satisfying [new]. *)
Definition dirs_added (w w' : world) (new : str -> Prop) : Prop :=
  net w' = net w /\ files w' = files w /\ stdout w' = stdout w /\ page w' = page w
  /\ dirs w ⊆ dirs w'
  /\ (forall d, d ∈ dirs w' -> d ∈ dirs w \/ new d).

(** The characters of every field can be encoded. *)
Definition encodable_rows (table : list (list str)) : bool :=
  forallb (forallb (forallb Os.encodable)) table.

(** ** The reader, one character at a time *)

(** What [reader_from] answers when the lines have run out. *)
Definition final_rows (r : Csv.reader_obj) : result (list (list str)) :=
  if negb (bool_decide (Csv.field r = []))
     || Csv.parser_state_eqb (Csv.state r) Csv.IN_QUOTED_FIELD
  then Ok [Csv.fields (Csv.parse_save_field r)]
  else Ok [].

(** The end of a line: the parser sees [EOL]; a record is complete when this
    leaves it in [START_RECORD]. *)
Definition end_of_line (r : Csv.reader_obj)
           (k : Csv.reader_obj -> result (list (list str))) : result (list (list str)) :=
  (r' <- Csv.parse_process_char r Csv.EOL;
   if Csv.parser_state_eqb (Csv.state r') Csv.START_RECORD
   then (rows <- k Csv.parse_reset; Ok (Csv.fields r' :: rows))
   else k r')%py.

(** The reader run over a text as its characters come, the line ends found
    on the way: [open] tells that the current line has characters, [cr]
    that it ends in a carriage return. *)
Fixpoint stream_rows (r : Csv.reader_obj) (open cr : bool) (s : str)
  : result (list (list str)) :=
  match s with
  | [] => if open then end_of_line r final_rows else final_rows r
  | c :: s' =>
      if (c =? 10)%N then
        (r1 <- Csv.parse_process_char r (Csv.Char c);
         end_of_line r1 (fun r2 => stream_rows r2 false false s'))%py
      else if cr then
        end_of_line r (fun r2 =>
          (r3 <- Csv.parse_process_char r2 (Csv.Char c);
           stream_rows r3 true (c =? 13)%N s')%py)
      else
        (r1 <- Csv.parse_process_char r (Csv.Char c);
         stream_rows r1 true (c =? 13)%N s')%py
  end.

Definition field_start (st : Csv.parser_state) : Prop :=
  st = Csv.START_RECORD \/ st = Csv.START_FIELD.

(** The reader after a field written by [join_append], read from the start
    of a field. *)
Definition after_field (st : Csv.parser_state) (f : str) (fs : list str) : Csv.reader_obj :=
  if existsb Csv.special f then Csv.Reader Csv.QUOTE_IN_QUOTED_FIELD f fs
  else match f with
       | [] => Csv.Reader st [] fs
       | _ :: _ => Csv.Reader Csv.IN_FIELD f fs
       end.

(** ** Sample documents *)

Definition text_node (s : str) : Bs4.node := Bs4.Str Bs4.NavigableString s.

Definition attrs_of (l : list (str * str)) : gmap str str := list_to_map l.

Definition node_of (e : Bs4.element) : Bs4.node :=
  Bs4.Tag (Bs4.el_name e) (Bs4.el_attrs e) (Bs4.el_contents e).

(** [<article class='Box-row'><h2 class='h3'> anchors </h2></article>] *)
Definition box_row (anchors : list Bs4.element) : Bs4.node :=
  Bs4.Tag (py "article") (attrs_of [(py "class", py "Box-row")])
    [Bs4.Tag (py "h2") (attrs_of [(py "class", py "h3")]) (List.map node_of anchors)].

(** [<a href='/owner/repo'>Open AI / gpt</a>] *)
Definition anchor_gpt : Bs4.element :=
  Bs4.Element (py "a") (attrs_of [(py "href", py "/owner/repo")])
    [text_node (py "Open AI / gpt")].

(** [<a>x</a>], an anchor without [href]. *)
Definition anchor_bare : Bs4.element :=
  Bs4.Element (py "a") ∅ [text_node (py "x")].

(** The anchor of a row of the trending page: the owner in a [span], then
    the repository name on a line of its own. *)
Definition anchor_trending : Bs4.element :=
  Bs4.Element (py "a") (attrs_of [(py "href", py "/owner/repo")])
    [Bs4.Tag (py "span") ∅ [text_node (py "owner /")];
     text_node ([10%N] ++ py "      repo")].

(** [<a href='https://example.com/x'>x</a>] *)
Definition anchor_absolute : Bs4.element :=
  Bs4.Element (py "a") (attrs_of [(py "href", py "https://example.com/x")])
    [text_node (py "x")].

Definition html_gpt_bare : str :=
  py "<article class='Box-row'><h2 class='h3'><a href='/owner/repo'>Open AI / gpt</a><a>x</a></h2></article>".

Definition html_bare_gpt : str :=
  py "<article class='Box-row'><h2 class='h3'><a>x</a><a href='/owner/repo'>Open AI / gpt</a></h2></article>".

Definition html_bare : str :=
  py "<article class='Box-row'><h2 class='h3'><a>x</a></h2></article>".

Definition html_absolute : str :=
  py "<article class='Box-row'><h2 class='h3'><a href='https://example.com/x'>x</a></h2></article>".

Definition html_gpt_absolute : str :=
  py "<article class='Box-row'><h2 class='h3'><a href='/owner/repo'>Open AI / gpt</a><a href='https://example.com/x'>x</a></h2></article>".

Definition html_trending : str :=
  py "<article class='Box-row'><h2 class='h3'><a href='/owner/repo'><span>owner /</span>"
  ++ [10%N] ++ py "      repo</a></h2></article>".

Definition text_plain : str := py "hello, world".

(** A tree builder that gives [soup] for the text [html] (and an empty
    document for any other text). *)
Definition parsed_as (html : str) (soup : list Bs4.node) : str -> result (list Bs4.node) :=
  fun s => if bool_decide (s = html) then Ok soup else Ok [].

Definition soup_gpt_bare : list Bs4.node := [box_row [anchor_gpt; anchor_bare]].
Definition soup_bare_gpt : list Bs4.node := [box_row [anchor_bare; anchor_gpt]].
Definition soup_bare : list Bs4.node := [box_row [anchor_bare]].
Definition soup_trending : list Bs4.node := [box_row [anchor_trending]].
Definition soup_absolute : list Bs4.node := [box_row [anchor_absolute]].
Definition soup_gpt_absolute : list Bs4.node := [box_row [anchor_gpt; anchor_absolute]].
Definition soup_plain : list Bs4.node := [text_node text_plain].

Definition bs_gpt_bare : str -> result (list Bs4.node) :=
  parsed_as html_gpt_bare soup_gpt_bare.

Definition bs_bare_gpt : str -> result (list Bs4.node) :=
  parsed_as html_bare_gpt soup_bare_gpt.

Definition bs_bare : str -> result (list Bs4.node) :=
  parsed_as html_bare soup_bare.

Definition bs_trending : str -> result (list Bs4.node) :=
  parsed_as html_trending soup_trending.

Definition bs_absolute : str -> result (list Bs4.node) :=
  parsed_as html_absolute soup_absolute.

Definition bs_gpt_absolute : str -> result (list Bs4.node) :=
  parsed_as html_gpt_absolute soup_gpt_absolute.

Definition bs_plain : str -> result (list Bs4.node) :=
  parsed_as text_plain soup_plain.

(** A text that html.parser rejects: a marked section with a keyword it
    does not know. *)
Definition html_rejected : str := py "<![xyz[ x ]]>".

(** What [BeautifulSoup] raises for it. *)
Definition rejection : exn :=
  ParserRejectedMarkup
    (py "The markup you provided was rejected by the parser. Trying a different parser or a different encoding may help."
     ++ [10%N; 10%N] ++ py "Original exception(s) from parser:" ++ [10%N]
     ++ py " AssertionError: unknown status keyword 'xyz' in marked section").

(** A tree builder that rejects [html_rejected] (and gives an empty
    document for any other text). *)
Definition bs_rejecting : str -> result (list Bs4.node) :=
  fun s => if bool_decide (s = html_rejected) then Raise rejection else Ok [].

Definition with_max (n : Z) : GitHubTrendingScraper :=
  init (py "https://github.com/trending") (py "data") n.

Definition repo_gpt : str * str := (py "OpenAI/gpt", py "https://github.com/owner/repo").

(** ** Sample worlds *)

Definition sample_response (status : Z) : Requests.Response :=
  {| Requests.status_code := status;
     Requests.reason := py "Not Modified";
     Requests.resp_url := py "https://github.com/trending";
     Requests.text := html_gpt_bare |}.

(** A world whose network answers every GET with the given status. *)
Definition world_answering (status : Z) : world :=
  World (fun _ _ => Requests.Done (sample_response status)) ∅ ∅ [] [].

(** A world whose network times out. *)
Definition world_timing_out : world :=
  World (fun _ _ => Requests.Failed
           {| Requests.exc_class := Requests.ReadTimeout;
              Requests.exc_str := py "Read timed out. (read timeout=10)" |}) ∅ ∅ [] [].

Definition world_empty : world := world_answering 200.

(** Entries whose fields hold a delimiter, quotes and a line break. *)
Definition sample_repos : list (str * str) :=
  [ (py "foo,bar", py "https://x/foo");
    (py "say " ++ [34%N] ++ py "hi" ++ [34%N], py "https://x/" ++ [13%N; 10%N] ++ py "bar") ].

Definition sample_repos2 : list (str * str) :=
  [ (py "baz", py "https://x/baz") ].

(** An entry whose name is one character over the field size limit. *)
Definition long_name : str := repeat 97%N (Z.to_nat (Csv.field_limit + 1)).

Definition long_repos : list (str * str) := [ (long_name, py "https://x/long") ].

(** An entry whose name holds a lone surrogate. *)
Definition surrogate_repos : list (str * str) := [ ([55357%N], py "https://x/s") ].

(** A world with a directory [d] and a regular file [f]. *)
Definition world_d_f : world :=
  World (fun _ _ => Requests.Done (sample_response 200))
        (list_to_map [(py "f", py "text")]) (list_to_set [py "d"]) [] [].

Definition world_exported : world :=
  snd (export_to_csv default_scraper sample_repos world_empty).

Definition world_exported_twice : world :=
  snd (export_to_csv default_scraper sample_repos2 world_exported).

(** ** Vocabulary of the further properties *)

(** The line [app.py] shows for one entry. *)
Definition markdown_line (repo : str * str) : str :=
  py "- [" ++ fst repo ++ py "](" ++ snd repo ++ py ")".

(** A world with an empty file system whose network answers every GET with
    the status 200 and the given body. *)
Definition world_serving (body : str) : world :=
  World (fun _ _ => Requests.Done
           {| Requests.status_code := 200;
              Requests.reason := py "OK";
              Requests.resp_url := py "https://github.com/trending";
              Requests.text := body |}) ∅ ∅ [] [].

Definition html_two : str :=
  py "<article class='Box-row'><h2 class='h3'><a href='/owner/repo'>Open AI / gpt</a>"
  ++ py "<a href='/owner/repo'><span>owner /</span>" ++ [10%N] ++ py "      repo</a></h2></article>".

Definition soup_two : list Bs4.node := [box_row [anchor_gpt; anchor_trending]].

Definition bs_two : str -> result (list Bs4.node) := parsed_as html_two soup_two.

(** The text of the file for entries that need no quoting: the header
    line, then one line [name,link] per entry. *)
Definition plain_text (repos : list (str * str)) : str :=
  py "Repository Name,Repository Link" ++ [13%N; 10%N]
  ++ flat_map (fun repo => fst repo ++ [44%N] ++ snd repo ++ [13%N; 10%N]) repos.

Definition world_after_run : world :=
  snd (run bs_gpt_bare (with_max 1) world_empty).

Definition world_after_button : world :=
  snd (on_button bs_trending (world_serving html_trending)).

(** [encloses path n e]: the tag [e] is the node [n] or lies below it, and
    [path] lists the tags from the parent of [e] up to [n], nearest first
    ([n] is not on it when [e] is [n]). *)
Inductive encloses : list (str * gmap str str) -> Bs4.node -> Bs4.element -> Prop :=
  | encloses_here name attrs contents :
      encloses [] (Bs4.Tag name attrs contents) (Bs4.Element name attrs contents)
  | encloses_child name attrs contents k path e :
      In k contents ->
      encloses path k e ->
      encloses (path ++ [(name, attrs)]) (Bs4.Tag name attrs contents) e.

(** One of the tags of [path] satisfies [c1], and one further out [c2]. *)
Definition inside (c1 c2 : Bs4.compound) (path : list (str * gmap str str)) : Prop :=
  exists pre p1 mid p2 post,
    path = pre ++ p1 :: mid ++ p2 :: post
    /\ Bs4.match_compound c1 (fst p1) (snd p1) = true
    /\ Bs4.match_compound c2 (fst p2) (snd p2) = true.

(** * Properties *)

(** ** Python strings and slices *)

Lemma replace_space_filter (s : str) :
  Py.replace (py " ") (py "") s = List.filter not_space s.
Proof.
  change (Py.replace (py " ") (py "") s) with (Py.replace_from [32%N] [] 0 s).
  induction s as [|c s IH]; [reflexivity|].
  cbn [Py.replace_from Py.is_prefix List.filter]. unfold not_space.
  destruct (32 =? c)%N eqn:E.
  - apply N.eqb_eq in E. subst c. cbn. exact IH.
  - rewrite N.eqb_sym, E. cbn. now rewrite IH.
Qed.

Lemma slice_to_nonneg {A} (stop : Z) (l : list A) :
  0 <= stop -> Py.slice_to stop l = take (Z.to_nat stop) l.
Proof. intros H. unfold Py.slice_to. now rewrite (proj2 (Z.leb_le 0 stop) H). Qed.

Lemma slice_to_neg {A} (n : nat) (l : list A) :
  (0 < n)%nat -> Py.slice_to (- Z.of_nat n) l = take (length l - n) l.
Proof.
  intros H. unfold Py.slice_to.
  destruct (0 <=? - Z.of_nat n) eqn:E; [apply Z.leb_le in E; lia|].
  f_equal. lia.
Qed.

Lemma slice_to_prefix {A} (stop : Z) (l : list A) :
  exists k, Py.slice_to stop l = take k l.
Proof. unfold Py.slice_to. destruct (0 <=? stop); eauto. Qed.

(** ** The loop of [parse_repositories] *)

Lemma repository_of_href (anchor : Bs4.element) (href : str) :
  Bs4.el_attrs anchor !! py "href" = Some href ->
  repository_of anchor =
    Ok (List.filter not_space (Bs4.get_text_strip anchor), py "https://github.com" ++ href).
Proof.
  intros H. unfold repository_of, Bs4.getitem. rewrite H. cbn [bind].
  now rewrite replace_space_filter.
Qed.

Lemma repository_of_no_href (anchor : Bs4.element) :
  Bs4.el_attrs anchor !! py "href" = None ->
  repository_of anchor = Raise (KeyError (py "href")).
Proof. intros H. unfold repository_of, Bs4.getitem. now rewrite H. Qed.

Lemma has_href_true (anchor : Bs4.element) :
  has_href anchor = true -> exists href, Bs4.el_attrs anchor !! py "href" = Some href.
Proof. unfold has_href. destruct (_ !! _) as [h|]; [eauto | discriminate]. Qed.

Lemma has_href_false (anchor : Bs4.element) :
  has_href anchor = false -> Bs4.el_attrs anchor !! py "href" = None.
Proof. unfold has_href. destruct (_ !! _) as [h|]; [discriminate | reflexivity]. Qed.

(** The loop appends one pair per anchor, in the order of the anchors. *)
Lemma parse_anchors_ok (anchors : list Bs4.element) (acc : list (str * str)) :
  forallb has_href anchors = true ->
  exists repos,
    parse_anchors anchors acc = Ok (acc ++ repos)
    /\ Forall2 (fun a r => repository_of a = Ok r) anchors repos.
Proof.
  revert acc. induction anchors as [|a anchors IH]; intros acc H.
  - exists []. split; [cbn; now rewrite app_nil_r | constructor].
  - cbn in H. apply andb_prop in H as [Ha Hrest].
    destruct (has_href_true _ Ha) as [href Hh].
    destruct (IH (acc ++ [(List.filter not_space (Bs4.get_text_strip a),
                           py "https://github.com" ++ href)]) Hrest)
      as (repos & Hp & HF).
    eexists (_ :: repos). split.
    + cbn [parse_anchors]. rewrite (repository_of_href _ _ Hh). cbn [bind].
      rewrite Hp. now rewrite <- app_assoc.
    + constructor; [now apply repository_of_href | exact HF].
Qed.

Lemma parse_anchors_inv (anchors : list Bs4.element) (acc repos : list (str * str)) :
  parse_anchors anchors acc = Ok repos ->
  exists l, repos = acc ++ l /\ Forall2 (fun a r => repository_of a = Ok r) anchors l.
Proof.
  revert acc. induction anchors as [|a anchors IH]; intros acc H; cbn in H.
  - exists []. split; [rewrite app_nil_r; congruence | constructor].
  - destruct (repository_of a) as [r|e] eqn:E; cbn in H; [|discriminate].
    destruct (IH _ H) as (l & -> & HF).
    exists (r :: l). split; [now rewrite <- app_assoc | now constructor].
Qed.

(** One anchor without [href] makes the whole loop raise, whatever was
    collected before it. *)
Lemma parse_anchors_raise (anchors : list Bs4.element) (acc : list (str * str)) :
  forallb has_href anchors = false ->
  parse_anchors anchors acc = Raise (KeyError (py "href")).
Proof.
  revert acc. induction anchors as [|a anchors IH]; intros acc H; [discriminate|].
  cbn in H. cbn [parse_anchors].
  destruct (has_href a) eqn:Ha.
  - destruct (has_href_true _ Ha) as [href Hh].
    rewrite (repository_of_href _ _ Hh). cbn [bind]. apply IH. exact H.
  - now rewrite (repository_of_no_href _ (has_href_false _ Ha)).
Qed.

(** ** [parse_repositories] *)

Section Parser.

Variable BeautifulSoup : str -> result (list Bs4.node).

(** On a text the tree builder accepts, the parser is its loop over the
    slice of the selection. *)
Lemma parse_repositories_soup self html soup :
  BeautifulSoup html = Ok soup ->
  parse_repositories BeautifulSoup self html = parse_anchors (anchors_of self soup) [].
Proof. intros H. unfold parse_repositories. now rewrite H. Qed.

(** On a text the tree builder rejects, the parser raises what the builder
    raised. *)
Lemma parse_repositories_rejected self html e :
  BeautifulSoup html = Raise e ->
  parse_repositories BeautifulSoup self html = Raise e.
Proof. intros H. unfold parse_repositories. now rewrite H. Qed.

(** The entry at a position of the result comes from the anchor at that
    position. *)
Lemma parse_repositories_lookup self html soup repos (i : nat) anchor :
  BeautifulSoup html = Ok soup ->
  parse_repositories BeautifulSoup self html = Ok repos ->
  anchors_of self soup !! i = Some anchor ->
  exists r, repos !! i = Some r /\ repository_of anchor = Ok r.
Proof.
  intros Hs H Hi. rewrite (parse_repositories_soup _ _ _ Hs) in H.
  destruct (parse_anchors_inv _ _ _ H) as (l & -> & HF). cbn.
  destruct (Forall2_lookup_l _ _ _ _ _ HF Hi) as (r & Hr & Hrep). eauto.
Qed.

(** When every anchor of the slice carries an [href], a list is returned,
    and it holds the entry of each anchor at the position of the anchor. *)
Lemma parse_repositories_returns self html soup (i : nat) anchor r :
  BeautifulSoup html = Ok soup ->
  forallb has_href (anchors_of self soup) = true ->
  anchors_of self soup !! i = Some anchor ->
  repository_of anchor = Ok r ->
  exists repos, parse_repositories BeautifulSoup self html = Ok repos /\ repos !! i = Some r.
Proof.
  intros Hs Hall Hi Hr. rewrite (parse_repositories_soup _ _ _ Hs).
  destruct (parse_anchors_ok _ [] Hall) as (repos & Hp & HF). cbn [app] in Hp.
  exists repos. split; [exact Hp|].
  destruct (Forall2_lookup_l _ _ _ _ _ HF Hi) as (r' & Hr' & Hrep). congruence.
Qed.

(** C1 (as amended).  For a text with K elements matching the selector and
    a positive [max_repos] = M, if the first min(K, M) matched anchors all
    carry an [href], [parse_repositories] returns exactly min(K, M)
    entries, the i-th entry being the one of the i-th match in document
    order; when K = 0 it returns the empty list.  The K elements are those
    of the tree the parser built for the text. *)
Theorem parse_repositories_count self html soup :
  let found := Bs4.select selector soup in
  BeautifulSoup html = Ok soup ->
  0 < max_repos self ->
  forallb has_href (take (Z.to_nat (max_repos self)) found) = true ->
  exists repos,
    parse_repositories BeautifulSoup self html = Ok repos
    /\ length repos = Nat.min (length found) (Z.to_nat (max_repos self))
    /\ Forall2 (fun a r => repository_of a = Ok r)
               (take (Nat.min (length found) (Z.to_nat (max_repos self))) found) repos
    /\ (length found = 0%nat -> repos = []).
Proof.
  intros found Hs HM Hh.
  assert (Hsl : anchors_of self soup = take (Z.to_nat (max_repos self)) found).
  { unfold anchors_of. apply slice_to_nonneg. lia. }
  destruct (parse_anchors_ok _ [] Hh) as (repos & Hp & HF).
  exists repos. rewrite (parse_repositories_soup _ _ _ Hs), Hsl, Hp. cbn [app].
  assert (Hlen : length repos = Nat.min (length found) (Z.to_nat (max_repos self))).
  { rewrite <- (Forall2_length _ _ _ HF), length_take. lia. }
  repeat split; [exact Hlen | | intros H0; rewrite H0 in Hlen; now destruct repos].
  destruct (Nat.min_spec (length found) (Z.to_nat (max_repos self))) as [[Hlt ->]|[Hle ->]];
    [|exact HF].
  rewrite (take_ge found (Z.to_nat (max_repos self))) in HF by lia.
  rewrite take_ge by lia. exact HF.
Qed.

(** C3 (as amended).  When one of the anchors the parser runs over, that
    is one of the first [max_repos] matches, lacks the [href] attribute,
    [parse_repositories] raises the [KeyError] of the missing key: no
    list is returned, neither with the malformed entry skipped nor cut
    short before it, and a run that got this text ends with that error. *)
Theorem parse_repositories_missing_href self html soup (i : nat) anchor :
  BeautifulSoup html = Ok soup ->
  anchors_of self soup !! i = Some anchor ->
  has_href anchor = false ->
  parse_repositories BeautifulSoup self html = Raise (KeyError (py "href"))
  /\ (forall w w', fetch_html self w = (Ok html, w') ->
        run BeautifulSoup self w = (Raise (KeyError (py "href")), w')).
Proof.
  intros Hs Hin Hno. apply list_elem_of_lookup_2 in Hin.
  assert (H : parse_repositories BeautifulSoup self html = Raise (KeyError (py "href"))).
  { rewrite (parse_repositories_soup _ _ _ Hs). apply parse_anchors_raise.
    destruct (forallb has_href (anchors_of self soup)) eqn:E; [|reflexivity].
    rewrite forallb_forall in E. apply list_elem_of_In in Hin.
    rewrite (E _ Hin) in Hno. discriminate. }
  split; [exact H|].
  intros w w' Hf. unfold run, io_bind. rewrite Hf. unfold io_lift. now rewrite H.
Qed.

(** C7.  For every matched link element whose [href] is the relative path
    [/owner/repo], the link extracted from it is exactly
    [https://github.com/owner/repo].  When the element is one of those the
    parser runs over, this is the link of its entry in every list the
    parser returns, and the parser does return a list with this entry
    when every anchor it runs over carries an [href]. *)
Theorem link_of_relative_path self html soup (j : nat) anchor (owner repo : str) :
  BeautifulSoup html = Ok soup ->
  Bs4.select selector soup !! j = Some anchor ->
  Bs4.el_attrs anchor !! py "href" = Some (py "/" ++ owner ++ py "/" ++ repo) ->
  exists name,
    repository_of anchor = Ok (name, py "https://github.com/" ++ owner ++ py "/" ++ repo)
    /\ forall i : nat,
         anchors_of self soup !! i = Some anchor ->
         (forall repos, parse_repositories BeautifulSoup self html = Ok repos ->
            repos !! i = Some (name, py "https://github.com/" ++ owner ++ py "/" ++ repo))
         /\ (forallb has_href (anchors_of self soup) = true ->
               exists repos,
                 parse_repositories BeautifulSoup self html = Ok repos
                 /\ repos !! i
                    = Some (name, py "https://github.com/" ++ owner ++ py "/" ++ repo)).
Proof.
  intros Hs _ Hh.
  assert (Hr : repository_of anchor
               = Ok (List.filter not_space (Bs4.get_text_strip anchor),
                     py "https://github.com/" ++ owner ++ py "/" ++ repo))
    by (rewrite (repository_of_href _ _ Hh); reflexivity).
  eexists. split; [exact Hr|]. intros i Hi. split.
  - intros repos Hp.
    destruct (parse_repositories_lookup _ _ _ _ _ _ Hs Hp Hi) as (r & Hrl & Hrep).
    rewrite Hr in Hrep. rewrite Hrl. f_equal. congruence.
  - intros Hall. exact (parse_repositories_returns _ _ _ _ _ _ Hs Hall Hi Hr).
Qed.

(** C9 (as amended).  For every matched anchor among the first
    [max_repos] matches, the ones the parser runs over, whatever its
    [href] is, the link is the fixed prefix followed by the [href]
    unchanged: there is no test that the [href] is a site-relative path.
    For an [href] that is already an absolute URL the link is the prefix
    with the whole URL after it, which is not that URL.  This is the link
    of the entry of the anchor in every list the parser returns, and the
    parser returns a list with this entry when every anchor it runs over
    carries an [href]. *)
Theorem link_prefix_unconditional self html soup (i : nat) anchor (href : str) :
  BeautifulSoup html = Ok soup ->
  anchors_of self soup !! i = Some anchor ->
  Bs4.el_attrs anchor !! py "href" = Some href ->
  exists name link,
    repository_of anchor = Ok (name, link)
    /\ link = py "https://github.com" ++ href
    /\ link <> href
    /\ (forall rest, href = py "https://" ++ rest ->
          link = py "https://github.comhttps://" ++ rest)
    /\ (forall repos, parse_repositories BeautifulSoup self html = Ok repos ->
          repos !! i = Some (name, link))
    /\ (forallb has_href (anchors_of self soup) = true ->
          exists repos,
            parse_repositories BeautifulSoup self html = Ok repos
            /\ repos !! i = Some (name, link)).
Proof.
  intros Hs Hi Hh. pose proof (repository_of_href _ _ Hh) as Hr.
  do 2 eexists. split; [exact Hr|].
  split; [reflexivity|].
  split; [intros E; apply (f_equal (@length N)) in E; rewrite length_app in E; cbn in E; lia|].
  split; [intros rest ->; reflexivity|]. split.
  - intros repos Hp.
    destruct (parse_repositories_lookup _ _ _ _ _ _ Hs Hp Hi) as (r & Hrl & Hrep).
    rewrite Hr in Hrep. rewrite Hrl. congruence.
  - intros Hall. exact (parse_repositories_returns _ _ _ _ _ _ Hs Hall Hi Hr).
Qed.

(** C8 (as amended).  For a text the parser builds a tree for: with
    [max_repos = 0] the empty list is returned; with [max_repos = -n],
    n > 0, the slice keeps all the matched anchors except the last n, the
    parser runs over these, and returns their entries in order when each
    of them carries an [href].  For a text the parser rejects, the call
    raises what the parser raised, whatever [max_repos] is. *)
Theorem parse_repositories_nonpositive self html :
  (forall soup, BeautifulSoup html = Ok soup ->
     let found := Bs4.select selector soup in
     (max_repos self = 0 -> parse_repositories BeautifulSoup self html = Ok [])
     /\ (forall n : nat, (0 < n)%nat -> max_repos self = - Z.of_nat n ->
           anchors_of self soup = take (length found - n) found
           /\ (forallb has_href (take (length found - n) found) = true ->
                 exists repos,
                   parse_repositories BeautifulSoup self html = Ok repos
                   /\ length repos = (length found - n)%nat
                   /\ Forall2 (fun a r => repository_of a = Ok r)
                              (take (length found - n) found) repos)))
  /\ (forall e, BeautifulSoup html = Raise e ->
        parse_repositories BeautifulSoup self html = Raise e).
Proof.
  split; [|intros e; apply parse_repositories_rejected].
  intros soup Hs found. rewrite (parse_repositories_soup _ _ _ Hs). split.
  - intros H0. unfold anchors_of. rewrite H0. reflexivity.
  - intros n Hn HM.
    assert (Hsl : anchors_of self soup = take (length found - n) found).
    { unfold anchors_of. rewrite HM. now apply slice_to_neg. }
    split; [exact Hsl|]. intros Hh.
    destruct (parse_anchors_ok _ [] Hh) as (repos & Hp & HF).
    exists repos. rewrite Hsl, Hp.
    repeat split; [|exact HF].
    rewrite <- (Forall2_length _ _ _ HF), length_take. lia.
Qed.

(** C10 (as amended).  For every text the parser builds a tree for, in
    which every element the selector matches carries an [href], and every
    [max_repos], [parse_repositories] returns a list and does not raise;
    the tree is not validated any further, and when nothing matches the
    list is empty.  A text the parser rejects makes the call raise what
    the parser raised. *)
Theorem parse_repositories_total self html :
  (forall soup, BeautifulSoup html = Ok soup ->
     forallb has_href (Bs4.select selector soup) = true ->
     (exists repos, parse_repositories BeautifulSoup self html = Ok repos)
     /\ (Bs4.select selector soup = [] ->
           parse_repositories BeautifulSoup self html = Ok []))
  /\ (forall e, BeautifulSoup html = Raise e ->
        parse_repositories BeautifulSoup self html = Raise e).
Proof.
  split; [|intros e; apply parse_repositories_rejected].
  intros soup Hs Hh. rewrite (parse_repositories_soup _ _ _ Hs). split.
  - destruct (slice_to_prefix (max_repos self) (Bs4.select selector soup)) as [k Hk].
    assert (Hsub : forallb has_href (anchors_of self soup) = true).
    { unfold anchors_of. rewrite Hk. apply forallb_forall. intros a Ha.
      rewrite forallb_forall in Hh. apply Hh.
      apply list_elem_of_In. apply list_elem_of_In in Ha.
      apply elem_of_take in Ha as (j & Hj & _).
      eapply list_elem_of_lookup_2; eassumption. }
    destruct (parse_anchors_ok _ [] Hsub) as (repos & Hp & _).
    exists repos. exact Hp.
  - intros He. unfold anchors_of. rewrite He.
    destruct (slice_to_prefix (max_repos self) (@nil Bs4.element)) as [k ->].
    now rewrite take_nil.
Qed.

(** The name of an entry. *)

Lemma concat_drop_empty (l : list str) :
  concat (List.filter (fun s => negb (bool_decide (s = []))) l) = concat l.
Proof.
  induction l as [|s l IH]; [reflexivity|]. cbn.
  destruct s as [|c s]; cbn; [exact IH | now rewrite IH].
Qed.

Lemma get_text_strip_joined (anchor : Bs4.element) :
  Bs4.get_text_strip anchor = concat (List.map Py.strip (Bs4.all_strings anchor)).
Proof. unfold Bs4.get_text_strip. apply concat_drop_empty. Qed.

(** C2 (as amended).  For every anchor the parser runs over, the extracted
    name is the text strings of the link, each trimmed of leading and
    trailing whitespace and then joined, with all space characters removed
    and every other character kept.  When the text of the link is a single
    string this is the text content trimmed, with the spaces removed. *)
Theorem name_of_anchor self html soup (i : nat) anchor :
  BeautifulSoup html = Ok soup ->
  anchors_of self soup !! i = Some anchor ->
  has_href anchor = true ->
  exists name link,
    repository_of anchor = Ok (name, link)
    /\ name = List.filter not_space (concat (List.map Py.strip (Bs4.all_strings anchor)))
    /\ (forall t, Bs4.all_strings anchor = [t] -> name = name_by_spec anchor)
    /\ (forall repos, parse_repositories BeautifulSoup self html = Ok repos ->
          fst <$> repos !! i = Some name).
Proof.
  intros Hs Hi Hh. destruct (has_href_true _ Hh) as [href Hhref].
  do 2 eexists. split; [apply (repository_of_href _ _ Hhref)|].
  split; [now rewrite get_text_strip_joined|].
  split.
  - intros t Ht. unfold name_by_spec, Bs4.get_text.
    rewrite get_text_strip_joined, Ht. cbn. now rewrite !app_nil_r.
  - intros repos Hp.
    destruct (parse_repositories_lookup _ _ _ _ _ _ Hs Hp Hi) as (r & Hr & Hrep).
    rewrite (repository_of_href _ _ Hhref) in Hrep. rewrite Hr.
    injection Hrep as <-. reflexivity.
Qed.

End Parser.

(** ** [fetch_html] and [run] *)

Lemma fetch_html_world self w : snd (fetch_html self w) = w.
Proof.
  unfold fetch_html. destruct (net w (url self) 10) as [r|e|e]; cbn; [|reflexivity..].
  destruct (Requests.raise_for_status r); reflexivity.
Qed.

Lemma raise_for_status_error (r : Requests.Response) :
  400 <= Requests.status_code r < 600 ->
  exists e, Requests.raise_for_status r = Requests.Failed e
            /\ Requests.exc_class e = Requests.HTTPError.
Proof.
  intros H. unfold Requests.raise_for_status.
  destruct ((400 <=? Requests.status_code r) && (Requests.status_code r <? 500)) eqn:E1;
    [eexists; split; reflexivity|].
  destruct ((500 <=? Requests.status_code r) && (Requests.status_code r <? 600)) eqn:E2;
    [eexists; split; reflexivity|].
  apply andb_false_iff in E1, E2. lia.
Qed.

Lemma raise_for_status_pass (r : Requests.Response) :
  ~ 400 <= Requests.status_code r < 600 ->
  Requests.raise_for_status r = Requests.Done tt.
Proof.
  intros H. unfold Requests.raise_for_status.
  destruct ((400 <=? Requests.status_code r) && (Requests.status_code r <? 500)) eqn:E1;
    [apply andb_true_iff in E1; lia|].
  destruct ((500 <=? Requests.status_code r) && (Requests.status_code r <? 600)) eqn:E2;
    [apply andb_true_iff in E2; lia|].
  reflexivity.
Qed.

(** C4 (as amended).  When the GET fails at the network level (a timeout
    included), or is answered with a client-error or server-error status
    (400 to 599), [fetch_html] ends with the [SystemExit] whose message
    carries the text of the underlying error; for every other answer it
    returns the full body of the response as text.  The world is left as it
    was in each case. *)
Theorem fetch_html_outcome self w :
  (forall e, net w (url self) 10 = Requests.Failed e ->
     fetch_html self w =
       (Raise (SystemExit (py "Failed to fetch data: " ++ Requests.exc_str e)), w))
  /\ (forall r, net w (url self) 10 = Requests.Done r ->
        400 <= Requests.status_code r < 600 ->
        exists e, Requests.raise_for_status r = Requests.Failed e
          /\ Requests.exc_class e = Requests.HTTPError
          /\ fetch_html self w =
               (Raise (SystemExit (py "Failed to fetch data: " ++ Requests.exc_str e)), w))
  /\ (forall r, net w (url self) 10 = Requests.Done r ->
        ~ 400 <= Requests.status_code r < 600 ->
        fetch_html self w = (Ok (Requests.text r), w)).
Proof.
  repeat split.
  - intros e H. unfold fetch_html. now rewrite H.
  - intros r H Hs. destruct (raise_for_status_error r Hs) as (e & He & Hc).
    exists e. repeat split; [exact He | exact Hc|].
    unfold fetch_html. rewrite H. cbn. now rewrite He.
  - intros r H Hs. unfold fetch_html. rewrite H. cbn.
    now rewrite (raise_for_status_pass r Hs).
Qed.

Section Run.

Variable BeautifulSoup : str -> result (list Bs4.node).

(** C5.  When [fetch_html] fails, the run ends with that failure before the
    parser or the exporter run: the world after the run is the world before
    it, so the output file is neither created nor modified, and nothing is
    printed.  The same holds for the button of the page. *)
Theorem fetch_failure_aborts self w e :
  fst (fetch_html self w) = Raise e ->
  run BeautifulSoup self w = (Raise e, w)
  /\ files (snd (run BeautifulSoup self w)) = files w
  /\ dirs (snd (run BeautifulSoup self w)) = dirs w
  /\ (fst (fetch_html default_scraper w) = Raise e ->
        on_button BeautifulSoup w = (Raise e, w)).
Proof.
  intros H.
  assert (Hrun : forall s, fst (fetch_html s w) = Raise e -> fetch_html s w = (Raise e, w)).
  { intros s Hs. pose proof (fetch_html_world s w) as Hw.
    destruct (fetch_html s w) as [r w1]. cbn in *. now subst. }
  assert (R : run BeautifulSoup self w = (Raise e, w)).
  { unfold run, io_bind. now rewrite (Hrun self H). }
  rewrite R. repeat split.
  intros Hd. unfold on_button, io_bind. now rewrite (Hrun default_scraper Hd).
Qed.

End Run.

(** ** [export_to_csv]: the table written and read back *)

(** *** The reader, one character at a time *)

(** The lines of a text, put end to end, are the text. *)
Lemma readlines_from_concat (s : str) :
  forall (line : str) (cr : bool), concat (Os.readlines_from line cr s) = line ++ s.
Proof.
  induction s as [|c s IH]; intros line cr; cbn [Os.readlines_from].
  - destruct line; cbn; now rewrite ?app_nil_r.
  - destruct (c =? 10)%N; [|destruct cr]; cbn [concat]; rewrite IH; cbn;
      now rewrite <- ?app_assoc.
Qed.

Lemma parse_chars_snoc (r : Csv.reader_obj) (line : str) (c : N) :
  Csv.parse_chars r (line ++ [c]) =
  (r' <- Csv.parse_chars r line; Csv.parse_process_char r' (Csv.Char c))%py.
Proof.
  revert r. induction line as [|d line IH]; intros r; cbn.
  - now destruct (Csv.parse_process_char r (Csv.Char c)).
  - destruct (Csv.parse_process_char r (Csv.Char d)) as [r'|e]; cbn; [apply IH | reflexivity].
Qed.

Lemma snoc_nonempty (line : str) (c : N) :
  negb (bool_decide (line ++ [c] = [])) = true.
Proof. now destruct line. Qed.

(** Reading line by line is reading character by character. *)
Lemma reader_from_stream (s : str) :
  forall (r0 : Csv.reader_obj) (line : str) (cr : bool),
    Csv.reader_from r0 (Os.readlines_from line cr s) =
    (r <- Csv.parse_chars r0 line;
     stream_rows r (negb (bool_decide (line = []))) cr s)%py.
Proof.
  induction s as [|c s IH]; intros r0 line cr.
  - destruct line as [|d line]; [reflexivity|].
    cbn [Os.readlines_from Csv.reader_from stream_rows]. unfold Csv.parse_line.
    destruct (Csv.parse_chars r0 (d :: line)) as [r|e]; [|reflexivity].
    cbn [bind negb bool_decide decide_rel]. unfold end_of_line.
    destruct (Csv.parse_process_char r Csv.EOL) as [r'|e]; reflexivity.
  - cbn [Os.readlines_from stream_rows].
    destruct (c =? 10)%N eqn:Elf.
    + cbn [Csv.reader_from]. unfold Csv.parse_line. rewrite parse_chars_snoc.
      destruct (Csv.parse_chars r0 line) as [r|e]; [|reflexivity]. cbn [bind].
      destruct (Csv.parse_process_char r (Csv.Char c)) as [r1|e]; [|reflexivity].
      cbn [bind]. unfold end_of_line.
      destruct (Csv.parse_process_char r1 Csv.EOL) as [r2|e]; [|reflexivity].
      cbn [bind]. now rewrite !IH.
    + destruct cr.
      * cbn [Csv.reader_from]. unfold Csv.parse_line.
        destruct (Csv.parse_chars r0 line) as [r|e]; [|reflexivity]. cbn [bind].
        unfold end_of_line.
        destruct (Csv.parse_process_char r Csv.EOL) as [r2|e]; [|reflexivity].
        cbn [bind]. rewrite !IH. cbn [Csv.parse_chars bind].
        destruct (Csv.state r2); cbn [Csv.parser_state_eqb];
          match goal with
          | |- context [Csv.parse_process_char ?x (Csv.Char c)] =>
              destruct (Csv.parse_process_char x (Csv.Char c)); reflexivity
          end.
      * rewrite IH, parse_chars_snoc, snoc_nonempty.
        destruct (Csv.parse_chars r0 line) as [r|e]; [|reflexivity]. cbn [bind].
        now destruct (Csv.parse_process_char r (Csv.Char c)).
Qed.

Lemma reader_stream (s : str) :
  Csv.reader (Os.readlines s) = stream_rows Csv.parse_reset false false s.
Proof. unfold Csv.reader, Os.readlines. now rewrite reader_from_stream. Qed.

(** *** One field *)

Lemma special_false (c : N) :
  Csv.special c = false ->
  (c =? 44)%N = false /\ (c =? 34)%N = false /\ (c =? 10)%N = false /\ (c =? 13)%N = false.
Proof.
  unfold Csv.special, Csv.delimiter, Csv.quotechar, Csv.LF, Csv.CR. intros H.
  repeat (apply orb_false_elim in H as [H ?]). auto.
Qed.

Lemma parse_add_char_ok (r : Csv.reader_obj) (c : N) :
  Z.of_nat (length (Csv.field r)) < Csv.field_limit ->
  Csv.parse_add_char r c = Ok (Csv.Reader (Csv.state r) (Csv.field r ++ [c]) (Csv.fields r)).
Proof.
  intros H. unfold Csv.parse_add_char.
  destruct (Z.leb_spec Csv.field_limit (Z.of_nat (length (Csv.field r)))); [lia | reflexivity].
Qed.

Lemma parse_add_char_full (r : Csv.reader_obj) (c : N) :
  Csv.field_limit <= Z.of_nat (length (Csv.field r)) ->
  Csv.parse_add_char r c = Raise (CsvError (py "field larger than field limit (131072)")).
Proof.
  intros H. unfold Csv.parse_add_char.
  destruct (Z.leb_spec Csv.field_limit (Z.of_nat (length (Csv.field r)))); [reflexivity | lia].
Qed.

Ltac plain_char H :=
  let Hd := fresh "Hd" in let Hq := fresh "Hq" in
  let Hl := fresh "Hl" in let Hc := fresh "Hc" in
  destruct (special_false _ H) as (Hd & Hq & Hl & Hc);
  unfold Csv.parse_process_char, Csv.start_field, Csv.is_newline,
         Csv.delimiter, Csv.quotechar, Csv.LF, Csv.CR;
  cbn [Csv.state Csv.set_state Csv.field Csv.fields];
  rewrite ?Hd, ?Hq, ?Hl, ?Hc; cbn [orb].

Ltac add_char :=
  rewrite parse_add_char_ok
    by (unfold Csv.set_state; cbn [Csv.field length]; rewrite ?length_app in *;
        cbn [length] in *; lia);
  unfold Csv.set_state; cbn [bind Csv.state Csv.field Csv.fields].

Lemma stream_plain (f : str) :
  existsb Csv.special f = false ->
  forall b fs rest,
    Z.of_nat (length b + length f) <= Csv.field_limit ->
    stream_rows (Csv.Reader Csv.IN_FIELD b fs) true false (f ++ rest) =
    stream_rows (Csv.Reader Csv.IN_FIELD (b ++ f) fs) true false rest.
Proof.
  induction f as [|c f IH]; intros H b fs rest Hlen; [now rewrite app_nil_r|].
  cbn in H. apply orb_false_elim in H as [Hc Hf].
  cbn [app stream_rows].
  destruct (special_false _ Hc) as (_ & _ & Hl & Hr). rewrite Hl, Hr.
  plain_char Hc. cbn [length] in Hlen. add_char.
  rewrite (IH Hf) by (rewrite length_app; cbn [length]; lia).
  now rewrite <- app_assoc.
Qed.

Lemma stream_plain_start (st : Csv.parser_state) (c : N) (f : str) :
  field_start st ->
  existsb Csv.special (c :: f) = false ->
  Z.of_nat (length (c :: f)) <= Csv.field_limit ->
  forall fs open rest,
    stream_rows (Csv.Reader st [] fs) open false ((c :: f) ++ rest) =
    stream_rows (Csv.Reader Csv.IN_FIELD (c :: f) fs) true false rest.
Proof.
  intros Hst H Hlen fs open rest. cbn in H. apply orb_false_elim in H as [Hc Hf].
  cbn [app stream_rows]. cbn [length] in Hlen.
  destruct (special_false _ Hc) as (_ & _ & Hl & Hr). rewrite Hl, Hr.
  destruct Hst as [-> | ->]; plain_char Hc; add_char; cbn [app];
    now rewrite (stream_plain f Hf) by (cbn [length]; lia).
Qed.

Lemma end_of_line_quoted (b : str) (fs : list str)
      (k : Csv.reader_obj -> result (list (list str))) :
  end_of_line (Csv.Reader Csv.IN_QUOTED_FIELD b fs) k = k (Csv.Reader Csv.IN_QUOTED_FIELD b fs).
Proof. reflexivity. Qed.

(** The body of a quoted field, quotes doubled, up to the closing quote. *)
Lemma stream_quoted (f : str) :
  forall b fs open cr rest,
    Z.of_nat (length b + length f) <= Csv.field_limit ->
    stream_rows (Csv.Reader Csv.IN_QUOTED_FIELD b fs) open cr
      (flat_map (fun c => if (c =? Csv.quotechar)%N then [Csv.quotechar; Csv.quotechar] else [c]) f
       ++ Csv.quotechar :: rest) =
    stream_rows (Csv.Reader Csv.QUOTE_IN_QUOTED_FIELD (b ++ f) fs) true false rest.
Proof.
  induction f as [|c f IH]; intros b fs open cr rest Hlen.
  - rewrite app_nil_r. cbn [flat_map app stream_rows]. destruct cr; reflexivity.
  - cbn [flat_map]. rewrite <- app_assoc. cbn [length] in Hlen.
    assert (Hb : Z.of_nat (length (b ++ [c]) + length f) <= Csv.field_limit)
      by (rewrite length_app; cbn [length]; lia).
    replace (b ++ c :: f) with ((b ++ [c]) ++ f) by now rewrite <- app_assoc.
    destruct (c =? Csv.quotechar)%N eqn:Eq.
    + apply N.eqb_eq in Eq. subst c.
      cbn [app stream_rows].
      change (Csv.quotechar =? 10)%N with false. change (Csv.quotechar =? 13)%N with false.
      cbn iota.
      assert (Hstep : Csv.parse_process_char (Csv.Reader Csv.IN_QUOTED_FIELD b fs)
                        (Csv.Char Csv.quotechar)
                      = Ok (Csv.Reader Csv.QUOTE_IN_QUOTED_FIELD b fs)) by reflexivity.
      assert (Hstep2 : Csv.parse_process_char (Csv.Reader Csv.QUOTE_IN_QUOTED_FIELD b fs)
                         (Csv.Char Csv.quotechar)
                       = Ok (Csv.Reader Csv.IN_QUOTED_FIELD (b ++ [Csv.quotechar]) fs)).
      { unfold Csv.parse_process_char. cbn [Csv.state].
        change (Csv.quotechar =? Csv.quotechar)%N with true. cbn iota. now add_char. }
      destruct cr; rewrite ?end_of_line_quoted; cbn beta; rewrite Hstep; cbn [bind];
        rewrite Hstep2; cbn [bind]; now apply IH.
    + assert (Hstep : Csv.parse_process_char (Csv.Reader Csv.IN_QUOTED_FIELD b fs) (Csv.Char c)
                      = Ok (Csv.Reader Csv.IN_QUOTED_FIELD (b ++ [c]) fs)).
      { unfold Csv.parse_process_char. cbn [Csv.state]. rewrite Eq. now add_char. }
      cbn [app stream_rows].
      destruct (c =? 10)%N eqn:El.
      * rewrite Hstep. cbn [bind]. rewrite end_of_line_quoted. now apply IH.
      * destruct cr; rewrite ?end_of_line_quoted; cbn beta; rewrite Hstep; cbn [bind];
          now apply IH.
Qed.

Lemma stream_field (st : Csv.parser_state) (f : str) (fs : list str) (open : bool) :
  field_start st ->
  within_limit f = true ->
  exists open', forall rest,
    stream_rows (Csv.Reader st [] fs) open false (Csv.join_append f ++ rest) =
    stream_rows (after_field st f fs) open' false rest.
Proof.
  intros Hst Hlim. unfold within_limit in Hlim. apply Z.leb_le in Hlim.
  unfold Csv.join_append, after_field.
  destruct (existsb Csv.special f) eqn:E.
  - exists true. intros rest. rewrite <- !app_assoc. cbn [app].
    pose proof (stream_quoted f [] fs true false rest Hlim) as Hq. cbn [app] in Hq.
    rewrite <- Hq. destruct Hst as [-> | ->]; reflexivity.
  - destruct f as [|c f].
    + exists open. reflexivity.
    + exists true. intros rest. now apply stream_plain_start.
Qed.

Lemma stream_delimiter (st : Csv.parser_state) (f : str) (fs : list str) (open : bool) rest :
  field_start st ->
  stream_rows (after_field st f fs) open false (Csv.delimiter :: rest) =
  stream_rows (Csv.Reader Csv.START_FIELD [] (fs ++ [f])) true false rest.
Proof.
  intros Hst. unfold after_field.
  destruct (existsb Csv.special f); [reflexivity|].
  destruct f; [destruct Hst as [-> | ->]|]; reflexivity.
Qed.

Lemma stream_record_end (st : Csv.parser_state) (f : str) (fs : list str) (open : bool) rest :
  st = Csv.START_FIELD \/ f <> [] ->
  stream_rows (after_field st f fs) open false (Csv.lineterminator ++ rest) =
  (rows <- stream_rows Csv.parse_reset false false rest; Ok ((fs ++ [f]) :: rows))%py.
Proof.
  intros H. unfold after_field.
  destruct (existsb Csv.special f); [reflexivity|].
  destruct f; [|reflexivity].
  destruct H as [-> | H]; [reflexivity | congruence].
Qed.

(** *** One record, then the whole table *)

Lemma join_fields_cons (f g : str) (more : list str) :
  Csv.join_fields (f :: g :: more) =
  Csv.join_append f ++ Csv.delimiter :: Csv.join_fields (g :: more).
Proof. reflexivity. Qed.

Lemma stream_join_fields (more : list str) :
  forall (f : str) (st : Csv.parser_state) (fs : list str) (open : bool) (rest : str),
    field_start st ->
    st = Csv.START_FIELD \/ f :: more <> [[]] ->
    forallb within_limit (f :: more) = true ->
    stream_rows (Csv.Reader st [] fs) open false
      (Csv.join_fields (f :: more) ++ Csv.lineterminator ++ rest) =
    (rows <- stream_rows Csv.parse_reset false false rest;
     Ok ((fs ++ f :: more) :: rows))%py.
Proof.
  induction more as [|g more IH]; intros f st fs open rest Hst Hne Hlim;
    cbn [forallb] in Hlim; apply andb_prop in Hlim as [Hf Hmore].
  - cbn [Csv.join_fields].
    destruct (stream_field st f fs open Hst Hf) as [open' Hs]. rewrite Hs.
    apply stream_record_end. destruct Hne as [-> | Hne]; [now left | right; congruence].
  - rewrite join_fields_cons, <- app_assoc.
    destruct (stream_field st f fs open Hst Hf) as [open' Hs]. rewrite Hs.
    cbn [app]. rewrite (stream_delimiter st f fs open' _ Hst).
    rewrite IH; [|now right | now left | exact Hmore].
    now rewrite <- app_assoc.
Qed.

Lemma stream_record (row : list str) (rest : str) :
  forallb within_limit row = true ->
  stream_rows Csv.parse_reset false false (Csv.record_text row ++ rest) =
  (rows <- stream_rows Csv.parse_reset false false rest; Ok (row :: rows))%py.
Proof.
  intros Hlim. unfold Csv.record_text. rewrite <- app_assoc.
  destruct (bool_decide (row = [[]])) eqn:E.
  - apply bool_decide_eq_true in E. subst row. reflexivity.
  - apply bool_decide_eq_false in E.
    destruct row as [|f more]; [reflexivity|].
    apply (stream_join_fields more f Csv.START_RECORD [] false rest);
      [now left | now right | exact Hlim].
Qed.

Lemma stream_table (table : list (list str)) :
  forallb (forallb within_limit) table = true ->
  stream_rows Csv.parse_reset false false (table_text table) = Ok table.
Proof.
  induction table as [|row table IH]; intros Hlim; [reflexivity|].
  cbn [forallb] in Hlim. apply andb_prop in Hlim as [Hrow Htable].
  unfold table_text. cbn [List.map concat]. rewrite (stream_record _ _ Hrow).
  fold (table_text table). now rewrite (IH Htable).
Qed.

(** The reader gives back every table the writer has written whose fields
    are within the field size limit. *)
Lemma reader_table_text (table : list (list str)) :
  forallb (forallb within_limit) table = true ->
  Csv.reader (Os.readlines (table_text table)) = Ok table.
Proof. intros H. rewrite reader_stream. now apply stream_table. Qed.

(** A field of plain characters that is over the limit stops the reader. *)
Lemma stream_plain_overflow (f : str) :
  existsb Csv.special f = false ->
  forall b fs rest,
    Z.of_nat (length b) <= Csv.field_limit < Z.of_nat (length b + length f) ->
    stream_rows (Csv.Reader Csv.IN_FIELD b fs) true false (f ++ rest) =
    Raise (CsvError (py "field larger than field limit (131072)")).
Proof.
  induction f as [|c f IH]; intros H b fs rest Hlen; [cbn [length] in Hlen; lia|].
  cbn in H. apply orb_false_elim in H as [Hc Hf].
  cbn [app stream_rows]. cbn [length] in Hlen.
  destruct (special_false _ Hc) as (_ & _ & Hl & Hr). rewrite Hl, Hr.
  plain_char Hc.
  destruct (Z.eq_dec (Z.of_nat (length b)) Csv.field_limit) as [Heq | Hne].
  - rewrite parse_add_char_full by (cbn [Csv.field]; lia). reflexivity.
  - add_char. apply (IH Hf). rewrite length_app. cbn [length]. lia.
Qed.

Lemma stream_overflow (f : str) (rest : str) :
  existsb Csv.special f = false ->
  Csv.field_limit < Z.of_nat (length f) ->
  stream_rows Csv.parse_reset false false (f ++ rest) =
  Raise (CsvError (py "field larger than field limit (131072)")).
Proof.
  intros H Hlen. destruct f as [|c f]; [cbn in Hlen; unfold Csv.field_limit in Hlen; lia|].
  cbn in H. apply orb_false_elim in H as [Hc Hf].
  unfold Csv.parse_reset. cbn [app stream_rows]. cbn [length] in Hlen.
  destruct (special_false _ Hc) as (_ & _ & Hl & Hr). rewrite Hl, Hr.
  plain_char Hc.
  rewrite parse_add_char_ok by (unfold Csv.set_state, Csv.field_limit; cbn [Csv.field length]; lia).
  unfold Csv.set_state. cbn [bind Csv.state Csv.field Csv.fields app].
  apply (stream_plain_overflow f Hf). cbn [length]. unfold Csv.field_limit in *. lia.
Qed.

(** ** The file system *)

(** *** Paths *)

Lemma cut_last_slash_spec (p h t : str) :
  Os.cut_last_slash p = (h, t) ->
  p = h ++ t /\ existsb Os.is_slash t = false /\ (h = [] \/ exists h', h = h' ++ [47%N]).
Proof.
  revert h t. induction p as [|c p IH]; intros h t; cbn [Os.cut_last_slash].
  - intros [= <- <-]. auto.
  - destruct (Os.cut_last_slash p) as [h0 t0].
    destruct (IH _ _ eq_refl) as (Hp & Ht & Hh).
    destruct (Os.is_slash c) eqn:Ec; cbn [orb].
    + intros [= <- <-]. split; [cbn; congruence|]. split; [exact Ht|]. right.
      apply N.eqb_eq in Ec. subst c.
      destruct Hh as [-> | [h' ->]]; [now exists [] | now exists (47%N :: h')].
    + destruct (bool_decide (h0 = [])) eqn:E0; cbn [negb].
      * apply bool_decide_eq_true in E0. subst h0. intros [= <- <-]. cbn in Hp. subst p.
        split; [reflexivity|]. split; [cbn; now rewrite Ec | now left].
      * apply bool_decide_eq_false in E0. intros [= <- <-].
        split; [cbn; congruence|]. split; [exact Ht|]. right.
        destruct Hh as [-> | [h' ->]]; [congruence | now exists (c :: h')].
Qed.

Lemma rstrip_slash_spec (s : str) :
  (exists n, s = Os.rstrip_slash s ++ repeat 47%N n)
  /\ (forall c, last (Os.rstrip_slash s) = Some c -> Os.is_slash c = false).
Proof.
  induction s as [|c s [[n IHn] IHl]]; [split; [now exists 0%nat | discriminate]|].
  cbn [Os.rstrip_slash]. destruct (Os.rstrip_slash s) as [|d r] eqn:E.
  - destruct (Os.is_slash c) eqn:Ec.
    + split; [|discriminate]. exists (S n). apply N.eqb_eq in Ec. subst c.
      cbn. now rewrite IHn at 1.
    + split; [exists n; cbn; now rewrite IHn at 1|]. intros c' [= <-]. exact Ec.
  - split; [exists n; cbn; now rewrite IHn at 1|].
    intros c' Hc. apply IHl. exact Hc.
Qed.

Lemma segments_nonempty (p : str) : Os.segments p <> [].
Proof.
  destruct p as [|c p]; [discriminate|]. cbn.
  destruct (Os.is_slash c); [discriminate|]. now destruct (Os.segments p).
Qed.

Lemma segments_app_slash (a b : str) :
  Os.segments (a ++ 47%N :: b) = Os.segments a ++ Os.segments b.
Proof.
  induction a as [|c a IH]; [reflexivity|]. cbn [app Os.segments]. rewrite IH.
  destruct (Os.is_slash c); [reflexivity|].
  pose proof (segments_nonempty a). now destruct (Os.segments a).
Qed.

Lemma segments_slash_free (t : str) :
  existsb Os.is_slash t = false -> Os.segments t = [t].
Proof.
  induction t as [|c t IH]; [reflexivity|]. cbn. intros H.
  apply orb_false_elim in H as [Hc Ht]. now rewrite Hc, (IH Ht).
Qed.

Lemma components_app_slash (a b : str) :
  Os.components (a ++ 47%N :: b) = Os.components a ++ Os.components b.
Proof. unfold Os.components. now rewrite segments_app_slash, List.filter_app. Qed.

Lemma components_slash_free (t : str) :
  existsb Os.is_slash t = false ->
  Os.components t = if bool_decide (t = []) then [] else [t].
Proof.
  intros H. unfold Os.components. rewrite (segments_slash_free _ H). cbn.
  now destruct (bool_decide (t = [])).
Qed.

Lemma components_app_slashes (r : str) (n : nat) :
  Os.components (r ++ repeat 47%N n) = Os.components r.
Proof.
  revert r. induction n as [|n IH]; intros r; [now rewrite app_nil_r|].
  cbn [repeat]. rewrite components_app_slash.
  rewrite <- (app_nil_r (Os.components r)) at 2. f_equal.
  apply (IH []).
Qed.

Lemma components_rstrip (h : str) : Os.components (Os.rstrip_slash h) = Os.components h.
Proof.
  destruct (rstrip_slash_spec h) as [[n Hn] _]. rewrite Hn at 2.
  now rewrite components_app_slashes.
Qed.

Lemma components_cut (p h t : str) :
  Os.cut_last_slash p = (h, t) ->
  Os.components p = Os.components h ++ (if bool_decide (t = []) then [] else [t]).
Proof.
  intros H. destruct (cut_last_slash_spec _ _ _ H) as (-> & Ht & Hh).
  rewrite <- (components_slash_free _ Ht).
  destruct Hh as [-> | [h' ->]]; [reflexivity|].
  rewrite <- app_assoc. cbn [app]. rewrite !components_app_slash.
  now rewrite <- app_assoc.
Qed.

Lemma split_spec (p head tail : str) :
  Os.split p = (head, tail) ->
  Os.components p = Os.components head ++ (if bool_decide (tail = []) then [] else [tail])
  /\ head `prefix_of` p
  /\ (length head + length tail <= length p)%nat
  /\ (forall c, last head = Some c -> Os.is_slash c = true -> Os.components head = []).
Proof.
  unfold Os.split. destruct (Os.cut_last_slash p) as [h t] eqn:E.
  pose proof (components_cut _ _ _ E) as Hc.
  destruct (cut_last_slash_spec _ _ _ E) as (Hp & _ & _).
  destruct (rstrip_slash_spec h) as [[n Hn] Hl].
  destruct (forallb Os.is_slash h) eqn:Ea; intros [= <- <-].
  - split; [exact Hc|]. split; [now exists t|]. split; [subst p; rewrite length_app; lia|].
    intros _ _ _. clear -Ea. 
    assert (H : forall r, Os.components (r ++ h) = Os.components r).
    { induction h as [|c h IH]; intros r; [now rewrite app_nil_r|].
      cbn in Ea. apply andb_prop in Ea as [Hc Hh]. apply N.eqb_eq in Hc. subst c.
      rewrite components_app_slash.
      rewrite <- (app_nil_r (Os.components r)) at 2. f_equal. apply (IH Hh []). }
    apply (H []).
  - rewrite components_rstrip. split; [exact Hc|].
    split; [exists (repeat 47%N n ++ t); rewrite app_assoc, <- Hn; exact Hp|].
    split.
    + subst p. rewrite length_app. apply (f_equal (@length N)) in Hn.
      rewrite length_app in Hn. lia.
    + intros c Hlast Hs. rewrite (Hl _ Hlast) in Hs. discriminate.
Qed.

Lemma head_tail_spec (name H T : str) :
  Os.head_tail name = (H, T) ->
  Os.components name = Os.components H ++ (if bool_decide (T = []) then [] else [T])
  /\ (T = [] -> Os.components name = [])
  /\ H `prefix_of` name
  /\ (T <> [] -> (length H < length name)%nat).
Proof.
  unfold Os.head_tail. destruct (Os.split name) as [head tail] eqn:E1.
  destruct (split_spec _ _ _ E1) as (Hc1 & Hp1 & Hl1 & _).
  destruct (bool_decide (tail = [])) eqn:Et.
  - apply bool_decide_eq_true in Et. subst tail. cbn in Hc1. rewrite app_nil_r in Hc1.
    intros E2. destruct (split_spec _ _ _ E2) as (Hc2 & Hp2 & Hl2 & Hs2).
    split; [now rewrite Hc1|]. split.
    + intros ->. rewrite Hc1. cbn in Hc2. rewrite app_nil_r in Hc2.
      (* the head of the first split ends in a slash or is empty *)
      unfold Os.split in E2. destruct (Os.cut_last_slash head) as [h2 t2] eqn:Ecut.
      destruct (cut_last_slash_spec _ _ _ Ecut) as (Hh & _ & Hends).
      injection E2 as E2 ->. rewrite app_nil_r in Hh. subst h2.
      destruct Hends as [-> | [h' Hh']]; [reflexivity|].
      destruct (split_spec _ _ _ E1) as (_ & _ & _ & Hs1).
      apply (Hs1 47%N); [rewrite Hh'; apply last_snoc | reflexivity].
    + split; [etrans; eassumption|].
      intros HT. destruct T; [congruence|]. cbn [length] in *.
      cbn [length] in Hl1. lia.
  - apply bool_decide_eq_false in Et. intros [= <- <-].
    rewrite (bool_decide_eq_false_2 _ Et).
    split; [exact Hc1|]. split; [congruence|]. split; [exact Hp1|].
    intros _. destruct tail; [congruence|]. cbn [length] in Hl1. lia.
Qed.

Lemma is_abs_prefix (q p : str) :
  q `prefix_of` p -> q <> [] -> Os.is_abs q = Os.is_abs p.
Proof. intros [k ->] Hq. destruct q; [congruence | reflexivity]. Qed.

(** *** Resolution *)

Lemma covered_app (w : world) (abs : bool) (l1 l2 : list str) :
  forall stack,
    covered w abs stack (l1 ++ l2)
    <-> covered w abs stack l1 /\ covered w abs (fold_left (Os.enter abs) l1 stack) l2.
Proof.
  induction l1 as [|c l1 IH]; intros stack; cbn [app covered fold_left]; [tauto|].
  rewrite IH. tauto.
Qed.

Lemma covered_mono (w w' : world) (abs : bool) (comps : list str) :
  dirs w ⊆ dirs w' ->
  (forall k, is_Some (files w !! k) -> is_Some (files w' !! k)) ->
  forall stack, covered w abs stack comps -> covered w' abs stack comps.
Proof.
  intros Hd Hf. induction comps as [|c comps IH]; intros stack; cbn [covered]; [tauto|].
  intros [Hc Hrest]. split; [|now apply IH].
  intros Ho. destruct (Hc Ho) as [H | H]; [left; now apply Hd | right; now apply Hf].
Qed.

Lemma descend_dir (w : world) (abs : bool) (comps : list str) :
  forall stack stack',
    Os.descend w abs stack comps = Os.Dir stack' ->
    stack' = fold_left (Os.enter abs) comps stack /\ covered w abs stack comps.
Proof.
  induction comps as [|c comps IH]; intros stack stack'; cbn [Os.descend fold_left covered].
  - intros [= <-]. auto.
  - destruct (negb (Os.ordinary c)
              || bool_decide (Os.spell abs (Os.enter abs stack c) ∈ dirs w)) eqn:E.
    + intros H. destruct (IH _ _ H) as [-> Hc]. split; [reflexivity|]. split; [|exact Hc].
      intros Ho. rewrite Ho in E. cbn in E. apply bool_decide_eq_true in E. now left.
    + now destruct (bool_decide (is_Some (files w !! Os.spell abs (Os.enter abs stack c)))).
Qed.

Lemma descend_more_dirs (w w' : world) (abs : bool) (comps : list str) :
  dirs w ⊆ dirs w' ->
  forall stack stack',
    Os.descend w abs stack comps = Os.Dir stack' ->
    Os.descend w' abs stack comps = Os.Dir stack'.
Proof.
  intros Hd. induction comps as [|c comps IH]; intros stack stack'; cbn [Os.descend];
    [tauto|].
  destruct (negb (Os.ordinary c)) eqn:Eo; cbn [orb]; [apply IH|].
  destruct (bool_decide (Os.spell abs (Os.enter abs stack c) ∈ dirs w)) eqn:Ed.
  - apply bool_decide_eq_true in Ed.
    rewrite bool_decide_eq_true_2 by now apply Hd. apply IH.
  - now destruct (bool_decide (is_Some (files w !! Os.spell abs (Os.enter abs stack c)))).
Qed.

Lemma descend_not_file (w : world) (abs : bool) (comps : list str) :
  forall stack k, Os.descend w abs stack comps <> Os.File k.
Proof.
  induction comps as [|c comps IH]; intros stack k; cbn [Os.descend]; [discriminate|].
  destruct (negb (Os.ordinary c)
            || bool_decide (Os.spell abs (Os.enter abs stack c) ∈ dirs w)); [apply IH|].
  now destruct (bool_decide (is_Some (files w !! Os.spell abs (Os.enter abs stack c)))).
Qed.

Lemma components_last (p c : str) :
  last (Os.components p) = Some c ->
  Os.components p = removelast (Os.components p) ++ [c].
Proof.
  intros H. apply last_Some in H as [l' H]. rewrite H. now rewrite removelast_last.
Qed.

(** The entry at the end of a path whose directories are there is kept
    under the key of the path. *)
Lemma key_last (w : world) (p c : str) (stack : list str) :
  Os.descend w (Os.is_abs p) [] (removelast (Os.components p)) = Os.Dir stack ->
  last (Os.components p) = Some c ->
  Os.spell (Os.is_abs p) (Os.enter (Os.is_abs p) stack c) = Os.key p.
Proof.
  intros Hd Hl. destruct (descend_dir _ _ _ _ _ Hd) as [-> _].
  unfold Os.key. rewrite (components_last _ _ Hl) at 2.
  now rewrite fold_left_app.
Qed.

Lemma covered_last (w : world) (p c : str) (stack : list str) :
  Os.descend w (Os.is_abs p) [] (removelast (Os.components p)) = Os.Dir stack ->
  last (Os.components p) = Some c ->
  (Os.ordinary c = true -> exists_at w (Os.key p)) ->
  covered w (Os.is_abs p) [] (Os.components p).
Proof.
  intros Hd Hl Hk. rewrite (components_last _ _ Hl). apply covered_app.
  destruct (descend_dir _ _ _ _ _ Hd) as [Hs Hc]. split; [exact Hc|].
  cbn [covered]. split; [|exact I]. intros Ho. rewrite <- Hs.
  rewrite (key_last _ _ _ _ Hd Hl). now apply Hk.
Qed.

Lemma stat_covered (p : str) (w : world) :
  Os.path_exists p w = true -> covered w (Os.is_abs p) [] (Os.components p).
Proof.
  unfold Os.path_exists, Os.stat.
  destruct (bool_decide (p = [])); [discriminate|].
  destruct (Os.descend w (Os.is_abs p) [] (removelast (Os.components p))) as [| |k|stack] eqn:Hd;
    try discriminate; [now apply descend_not_file in Hd|].
  destruct (last (Os.components p)) as [c|] eqn:Hl.
  - intros H. apply (covered_last _ _ _ _ Hd Hl). intros Ho. rewrite Ho in H. cbn [negb orb] in H.
    rewrite (key_last _ _ _ _ Hd Hl) in H. unfold exists_at.
    destruct (bool_decide (Os.key p ∈ dirs w)) eqn:E1;
      [apply bool_decide_eq_true in E1; now left|].
    destruct (bool_decide (is_Some (files w !! Os.key p))) eqn:E2;
      [apply bool_decide_eq_true in E2; now right | discriminate].
  - intros _. apply last_None in Hl. rewrite Hl. exact I.
Qed.

Lemma isdir_exists (p : str) (w : world) :
  Os.path_isdir p w = true -> Os.path_exists p w = true.
Proof. unfold Os.path_isdir, Os.path_exists. now destruct (Os.stat p w). Qed.

(** *** [mkdir] *)

Lemma mkdir_inv (p : str) (w : world) (r : result unit) (w' : world) :
  Os.mkdir p w = (r, w') ->
  (r = Ok tt
   /\ w' = World (net w) (files w) ({[Os.key p]} ∪ dirs w) (stdout w) (page w)
   /\ ~ exists_at w (Os.key p)
   /\ covered w' (Os.is_abs p) [] (Os.components p))
  \/ ((exists e, r = Raise e) /\ w' = w
      /\ ((exists q, r = Raise (FileExistsError q)) ->
            covered w (Os.is_abs p) [] (Os.components p))).
Proof.
  unfold Os.mkdir.
  destruct (bool_decide (p = [])).
  { intros [= <- <-]. right. split; [eauto|]. split; [reflexivity|]. intros [q [=]]. }
  destruct (Os.descend w (Os.is_abs p) [] (removelast (Os.components p))) as [| | |stack] eqn:Hd;
    try (intros [= <- <-]; right; split; [eauto|]; split; [reflexivity|]; intros [q [=]]).
  destruct (last (Os.components p)) as [c|] eqn:Hl.
  - rewrite (key_last _ _ _ _ Hd Hl).
    destruct (negb (Os.ordinary c) || bool_decide (Os.key p ∈ dirs w)
              || bool_decide (is_Some (files w !! Os.key p))) eqn:E; intros [= <- <-].
    + right. split; [eauto|]. split; [reflexivity|]. intros _.
      apply (covered_last _ _ _ _ Hd Hl). intros Ho. rewrite Ho in E. cbn [negb orb] in E.
      apply orb_prop in E as [E | E]; apply bool_decide_eq_true in E; [now left | now right].
    + left. apply orb_false_elim in E as [E E3]. apply orb_false_elim in E as [E1 E2].
      apply bool_decide_eq_false in E2, E3.
      split; [reflexivity|]. split; [reflexivity|]. split; [intros [H | H]; tauto|].
      assert (Hd' : Os.descend (World (net w) (files w) ({[Os.key p]} ∪ dirs w) (stdout w) (page w))
                      (Os.is_abs p) [] (removelast (Os.components p)) = Os.Dir stack).
      { apply (descend_more_dirs w); [|exact Hd]. cbn [dirs]. apply union_subseteq_r. }
      apply (covered_last _ _ _ _ Hd' Hl). intros _. left. cbn [dirs].
      apply elem_of_union. left. now apply elem_of_singleton.
  - intros [= <- <-]. right. split; [eauto|]. split; [reflexivity|]. intros _.
    apply last_None in Hl. rewrite Hl. exact I.
Qed.

Lemma mkdir_covered (p : str) (w : world) (r : result unit) (w' : world) :
  covered w (Os.is_abs p) [] (Os.components p) ->
  Os.mkdir p w = (r, w') -> w' = w.
Proof.
  intros Hc H. destruct (mkdir_inv _ _ _ _ H) as [(-> & _ & Hn & _) | (_ & -> & _)]; [|reflexivity].
  exfalso. revert H. unfold Os.mkdir.
  destruct (bool_decide (p = [])); [discriminate|].
  destruct (Os.descend w (Os.is_abs p) [] (removelast (Os.components p))) as [| | |stack] eqn:Hd;
    try discriminate.
  destruct (last (Os.components p)) as [c|] eqn:Hl; [|discriminate].
  rewrite (key_last _ _ _ _ Hd Hl).
  destruct (Os.ordinary c) eqn:Ho; [|discriminate]. intros _.
  rewrite (components_last _ _ Hl) in Hc. apply covered_app in Hc as [_ Hc].
  cbn [covered] in Hc. destruct Hc as [Hc _].
  destruct (descend_dir _ _ _ _ _ Hd) as [Hs _]. rewrite <- Hs in Hc.
  rewrite (key_last _ _ _ _ Hd Hl) in Hc. apply Hn. now apply Hc.
Qed.

Lemma mkdir_exist_ok_inv (p : str) (w : world) (r : result unit) (w' : world) :
  Os.mkdir_exist_ok p w = (r, w') ->
  (w' = w \/ w' = World (net w) (files w) ({[Os.key p]} ∪ dirs w) (stdout w) (page w))
  /\ (r = Ok tt \/ (exists q, r = Raise (FileExistsError q)) ->
        covered w' (Os.is_abs p) [] (Os.components p))
  /\ (covered w (Os.is_abs p) [] (Os.components p) -> w' = w).
Proof.
  unfold Os.mkdir_exist_ok. destruct (Os.mkdir p w) as [[[]|e] w1] eqn:Hm.
  - intros [= <- <-].
    destruct (mkdir_inv _ _ _ _ Hm) as [(_ & -> & _ & Hc) | ([e [=]] & _)].
    split; [now right|]. split; [intros _; exact Hc|].
    intros Hcov. now rewrite (mkdir_covered _ _ _ _ Hcov Hm) at 1.
  - destruct (mkdir_inv _ _ _ _ Hm) as [([=] & _) | (_ & -> & Hc)].
    destruct (Os.path_isdir p w) eqn:Hi; intros [= <- <-].
    + split; [now left|]. split; [|reflexivity].
      intros _. apply stat_covered. now apply isdir_exists.
    + split; [now left|]. split; [|reflexivity].
      intros [[=] | Hq]. now apply Hc.
Qed.

(** *** [makedirs] *)

Lemma dirs_added_refl (w : world) (new : str -> Prop) : dirs_added w w new.
Proof. unfold dirs_added. repeat split; auto. Qed.

Lemma dirs_added_trans (w1 w2 w3 : world) (new1 new2 new : str -> Prop) :
  dirs_added w1 w2 new1 -> dirs_added w2 w3 new2 ->
  (forall d, new1 d -> new d) -> (forall d, new2 d -> new d) ->
  dirs_added w1 w3 new.
Proof.
  intros (Hn1 & Hf1 & Hs1 & Hp1 & Hd1 & Ha1) (Hn2 & Hf2 & Hs2 & Hp2 & Hd2 & Ha2) H1 H2.
  unfold dirs_added. repeat split; try congruence; [etrans; eassumption|].
  intros d Hd. destruct (Ha2 d Hd) as [H | H]; [|right; auto].
  destruct (Ha1 d H) as [H' | H']; [now left | right; auto].
Qed.

Lemma dirs_added_weaken (w w' : world) (new1 new : str -> Prop) :
  dirs_added w w' new1 -> (forall d, new1 d -> new d) -> dirs_added w w' new.
Proof.
  intros (Hn & Hf & Hs & Hp & Hd & Ha) H. unfold dirs_added. repeat split; try assumption.
  intros d Hin. destruct (Ha d Hin); [now left | right; auto].
Qed.

Lemma mkdir_exist_ok_added (p : str) (w : world) (r : result unit) (w' : world) :
  Os.mkdir_exist_ok p w = (r, w') -> dirs_added w w' (fun d => d = Os.key p).
Proof.
  intros H. destruct (mkdir_exist_ok_inv _ _ _ _ H) as ([-> | ->] & _); [apply dirs_added_refl|].
  unfold dirs_added. cbn [net files dirs stdout page].
  repeat split; [apply union_subseteq_r|].
  intros d Hd. apply elem_of_union in Hd as [Hd | Hd]; [right; now apply elem_of_singleton in Hd | now left].
Qed.

Lemma makedirs_at_S (n : nat) (name : str) (w : world) :
  Os.makedirs_at (S n) name w =
  if negb (bool_decide (fst (Os.head_tail name) = []))
     && negb (bool_decide (snd (Os.head_tail name) = []))
     && negb (Os.path_exists (fst (Os.head_tail name)) w)
  then match Os.makedirs_at n (fst (Os.head_tail name)) w with
       | (Ok _, w') | (Raise (FileExistsError _), w') =>
           if bool_decide (snd (Os.head_tail name) = py ".") then (Ok tt, w')
           else Os.mkdir_exist_ok name w'
       | (Raise e, w') => (Raise e, w')
       end
  else Os.mkdir_exist_ok name w.
Proof. cbn [Os.makedirs_at]. now destruct (Os.head_tail name). Qed.

Lemma makedirs_at_O (name : str) (w : world) :
  Os.makedirs_at 0 name w = Os.mkdir_exist_ok name w.
Proof. cbn [Os.makedirs_at]. now destruct (Os.head_tail name). Qed.

Lemma makedirs_at_added (n : nat) :
  forall name w r w',
    Os.makedirs_at n name w = (r, w') ->
    dirs_added w w' (fun d => exists q, q `prefix_of` name /\ d = Os.key q).
Proof.
  induction n as [|n IH]; intros name w r w'.
  - rewrite makedirs_at_O. intros H.
    apply (dirs_added_weaken _ _ _ _ (mkdir_exist_ok_added _ _ _ _ H)).
    intros d ->. now exists name.
  - rewrite makedirs_at_S.
    destruct (Os.head_tail name) as [H T] eqn:Eht. cbn [fst snd].
    destruct (head_tail_spec _ _ _ Eht) as (_ & _ & Hpre & _).
    assert (Hlast : forall wa r' w', Os.mkdir_exist_ok name wa = (r', w') ->
              dirs_added wa w' (fun d => exists q, q `prefix_of` name /\ d = Os.key q)).
    { intros wa r' w'' Hm.
      apply (dirs_added_weaken _ _ _ _ (mkdir_exist_ok_added _ _ _ _ Hm)).
      intros d ->. now exists name. }
    destruct (negb (bool_decide (H = [])) && negb (bool_decide (T = []))
              && negb (Os.path_exists H w)); [|apply Hlast].
    destruct (Os.makedirs_at n H w) as [r1 w1] eqn:Hrec.
    assert (Hw1 : dirs_added w w1 (fun d => exists q, q `prefix_of` name /\ d = Os.key q)).
    { apply (dirs_added_weaken _ _ _ _ (IH _ _ _ _ Hrec)).
      intros d (q & Hq & ->). exists q. split; [etrans; eassumption | reflexivity]. }
    destruct r1 as [[]|[]]; try (intros [= <- <-]; exact Hw1);
      (destruct (bool_decide (T = py ".")); [intros [= <- <-]; exact Hw1|]);
      intros Hm; (eapply dirs_added_trans; [exact Hw1 | apply (Hlast _ _ _ Hm) | auto..]).
Qed.

(** After [makedirs] has returned, every entry on the way of [name] is
    there. *)
Lemma makedirs_at_covered (n : nat) :
  forall name w r w',
    (length name <= n)%nat ->
    Os.makedirs_at n name w = (r, w') ->
    r = Ok tt \/ (exists q, r = Raise (FileExistsError q)) ->
    covered w' (Os.is_abs name) [] (Os.components name).
Proof.
  induction n as [|n IH]; intros name w r w' Hlen.
  - rewrite makedirs_at_O. intros H. apply (mkdir_exist_ok_inv _ _ _ _ H).
  - rewrite makedirs_at_S.
    destruct (Os.head_tail name) as [H T] eqn:Eht. cbn [fst snd].
    destruct (head_tail_spec _ _ _ Eht) as (Hcomps & _ & Hpre & Hshort).
    destruct (negb (bool_decide (H = [])) && negb (bool_decide (T = []))
              && negb (Os.path_exists H w)) eqn:Econd;
      [|intros Hm; apply (mkdir_exist_ok_inv _ _ _ _ Hm)].
    apply andb_prop in Econd as [Econd _]. apply andb_prop in Econd as [EH ET].
    apply negb_true_iff, bool_decide_eq_false in EH, ET.
    destruct (Os.makedirs_at n H w) as [r1 w1] eqn:Hrec.
    assert (Hdot : r1 = Ok tt \/ (exists q, r1 = Raise (FileExistsError q)) ->
              T = py "." -> covered w1 (Os.is_abs name) [] (Os.components name)).
    { intros Hr1 Edot. rewrite Hcomps, (bool_decide_eq_false_2 _ ET). apply covered_app. split.
      - rewrite <- (is_abs_prefix _ _ Hpre EH).
        specialize (Hshort ET). apply (IH H w r1 w1); [lia | exact Hrec | exact Hr1].
      - subst T. cbn [covered]. split; [intros [=] | exact I]. }
    destruct r1 as [[]|[]];
      try (intros [= <- <-] [[=] | [q [=]]]);
      (destruct (bool_decide (T = py ".")) eqn:Edot;
       [apply bool_decide_eq_true in Edot; intros [= <- <-] _; apply Hdot; eauto
       |intros Hm; apply (mkdir_exist_ok_inv _ _ _ _ Hm)]).
Qed.

(** When every entry on the way of [name] is there, [makedirs] changes
    nothing. *)
Lemma makedirs_at_settled (n : nat) :
  forall name w r w',
    covered w (Os.is_abs name) [] (Os.components name) ->
    Os.makedirs_at n name w = (r, w') -> w' = w.
Proof.
  induction n as [|n IH]; intros name w r w' Hcov.
  - rewrite makedirs_at_O. intros H. now apply (mkdir_exist_ok_inv _ _ _ _ H).
  - rewrite makedirs_at_S.
    destruct (Os.head_tail name) as [H T] eqn:Eht. cbn [fst snd].
    destruct (head_tail_spec _ _ _ Eht) as (Hcomps & _ & Hpre & _).
    destruct (negb (bool_decide (H = [])) && negb (bool_decide (T = []))
              && negb (Os.path_exists H w)) eqn:Econd;
      [|intros Hm; now apply (mkdir_exist_ok_inv _ _ _ _ Hm)].
    apply andb_prop in Econd as [Econd _]. apply andb_prop in Econd as [EH ET].
    apply negb_true_iff, bool_decide_eq_false in EH, ET.
    destruct (Os.makedirs_at n H w) as [r1 w1] eqn:Hrec.
    assert (Hw1 : w1 = w).
    { apply (IH H w r1 w1); [|exact Hrec].
      rewrite (is_abs_prefix _ _ Hpre EH).
      rewrite Hcomps in Hcov. now apply covered_app in Hcov as [Hcov _]. }
    subst w1.
    destruct r1 as [[]|[]]; try (now intros [= <- <-]);
      (destruct (bool_decide (T = py ".")); [now intros [= <- <-]|]);
      intros Hm; now apply (mkdir_exist_ok_inv _ _ _ _ Hm).
Qed.

(** More fuel than the length of [name] changes nothing. *)
Lemma makedirs_at_fuel (n : nat) :
  forall m name w,
    (length name <= n)%nat -> (length name <= m)%nat ->
    Os.makedirs_at n name w = Os.makedirs_at m name w.
Proof.
  induction n as [|n IH]; intros m name w Hn Hm.
  - destruct name; [|cbn in Hn; lia]. destruct m; reflexivity.
  - destruct m as [|m].
    + destruct name; [reflexivity | cbn in Hm; lia].
    + rewrite !makedirs_at_S.
      destruct (Os.head_tail name) as [H T] eqn:Eht. cbn [fst snd].
      destruct (head_tail_spec _ _ _ Eht) as (_ & _ & _ & Hshort).
      destruct (negb (bool_decide (H = [])) && negb (bool_decide (T = []))
                && negb (Os.path_exists H w)) eqn:Econd; [|reflexivity].
      apply andb_prop in Econd as [Econd _]. apply andb_prop in Econd as [_ ET].
      apply negb_true_iff, bool_decide_eq_false in ET. specialize (Hshort ET).
      rewrite (IH m H w); [reflexivity | lia | lia].
Qed.

(** *** [open] and [write] *)

Lemma open_w_inv (p : str) (w : world) (k : str) (w' : world) :
  Os.open_w p w = (Ok k, w') ->
  k = Os.key p
  /\ w' = World (net w) (<[Os.key p := []]> (files w)) (dirs w) (stdout w) (page w)
  /\ (forall w2, dirs w2 = dirs w -> is_Some (files w2 !! Os.key p) ->
        Os.stat p w2 = Os.File (Os.key p)).
Proof.
  unfold Os.open_w, Os.stat.
  destruct (bool_decide (p = [])); [discriminate|].
  destruct (Os.descend w (Os.is_abs p) [] (removelast (Os.components p))) as [| | |stack] eqn:Hd;
    try discriminate.
  destruct (last (Os.components p)) as [c|] eqn:Hl; [|discriminate].
  rewrite (key_last _ _ _ _ Hd Hl).
  destruct (negb (Os.ordinary c) || bool_decide (last p = Some 47%N)
            || bool_decide (Os.key p ∈ dirs w)) eqn:E; [discriminate|].
  intros [= <- <-]. split; [reflexivity|]. split; [reflexivity|].
  intros w2 Hdirs Hfile.
  rewrite (descend_more_dirs w w2 _ _ ltac:(now rewrite Hdirs) _ _ Hd).
  rewrite (key_last _ _ _ _ Hd Hl), Hdirs.
  apply orb_false_elim in E as [E E3]. apply orb_false_elim in E as [E1 E2].
  rewrite E1, E2, E3. cbn [orb]. now rewrite (bool_decide_eq_true_2 _ Hfile).
Qed.

Lemma open_w_raise (p : str) (w : world) (e : exn) (w' : world) :
  Os.open_w p w = (Raise e, w') -> w' = w.
Proof.
  unfold Os.open_w.
  destruct (bool_decide (p = [])); [now intros [= <- <-]|].
  destruct (Os.descend w (Os.is_abs p) [] (removelast (Os.components p)));
    try (now intros [= <- <-]).
  destruct (last (Os.components p)); [|now intros [= <- <-]].
  destruct (_ || _); [now intros [= <- <-] | discriminate].
Qed.

Lemma find_unencodable (s : str) :
  List.find (fun c => negb (Os.encodable c)) s = None <-> forallb Os.encodable s = true.
Proof.
  induction s as [|c s IH]; cbn; [tauto|].
  destruct (Os.encodable c); cbn; [exact IH | split; discriminate].
Qed.

Lemma write_inv (file data : str) (w : world) (r : result unit) (w' : world) :
  Os.write file data w = (r, w') ->
  (r = Ok tt /\ forallb Os.encodable data = true
   /\ w' = World (net w) (<[file := default [] (files w !! file) ++ data]> (files w))
                 (dirs w) (stdout w) (page w))
  \/ ((exists c, r = Raise (UnicodeEncodeError c)) /\ w' = w).
Proof.
  unfold Os.write.
  destruct (List.find (fun c => negb (Os.encodable c)) data) as [c|] eqn:E; intros [= <- <-].
  - right. eauto.
  - left. apply find_unencodable in E. auto.
Qed.

Lemma write_ok (file data : str) (w : world) :
  forallb Os.encodable data = true ->
  Os.write file data w =
    (Ok tt, World (net w) (<[file := default [] (files w !! file) ++ data]> (files w))
                  (dirs w) (stdout w) (page w)).
Proof. intros H. unfold Os.write. apply find_unencodable in H. now rewrite H. Qed.

Lemma encodable_join_append (f : str) :
  forallb Os.encodable (Csv.join_append f) = forallb Os.encodable f.
Proof.
  unfold Csv.join_append. destruct (existsb Csv.special f); [|reflexivity].
  rewrite !forallb_app. cbn [forallb]. change (Os.encodable Csv.quotechar) with true.
  cbn [andb]. rewrite andb_true_r.
  induction f as [|c f IH]; [reflexivity|]. cbn [flat_map forallb]. rewrite forallb_app, IH.
  destruct (c =? Csv.quotechar)%N eqn:E; [|cbn; now rewrite andb_true_r].
  apply N.eqb_eq in E. subst c. reflexivity.
Qed.

Lemma encodable_join_fields (row : list str) :
  forallb Os.encodable (Csv.join_fields row) = forallb (forallb Os.encodable) row.
Proof.
  induction row as [|f row IH]; [reflexivity|].
  destruct row as [|g row].
  - cbn [Csv.join_fields forallb]. now rewrite encodable_join_append, andb_true_r.
  - change (Csv.join_fields (f :: g :: row))
      with (Csv.join_append f ++ [Csv.delimiter] ++ Csv.join_fields (g :: row)).
    rewrite !forallb_app, IH, encodable_join_append. reflexivity.
Qed.

Lemma encodable_record (row : list str) :
  forallb Os.encodable (Csv.record_text row) = forallb (forallb Os.encodable) row.
Proof.
  unfold Csv.record_text. rewrite forallb_app.
  change (forallb Os.encodable Csv.lineterminator) with true. rewrite andb_true_r.
  destruct (bool_decide (row = [[]])) eqn:E; [|apply encodable_join_fields].
  apply bool_decide_eq_true in E. now subst row.
Qed.

Lemma encodable_table (table : list (list str)) :
  forallb Os.encodable (table_text table) = encodable_rows table.
Proof.
  unfold table_text, encodable_rows.
  induction table as [|row table IH]; [reflexivity|].
  cbn [List.map concat forallb]. now rewrite forallb_app, encodable_record, IH.
Qed.

(** *** The file that [export_to_csv] leaves *)

Lemma writerows_ok (file : str) (rows : list (list str)) :
  forall (w : world) (content : str),
    encodable_rows rows = true ->
    files w !! file = Some content ->
    Csv.writerows file rows w =
      (Ok tt, World (net w) (<[file := content ++ table_text rows]> (files w))
                    (dirs w) (stdout w) (page w)).
Proof.
  induction rows as [|row rows IH]; intros w content Henc H.
  - cbn. unfold io_ret, table_text. cbn. rewrite app_nil_r.
    rewrite (insert_id _ _ _ H). now destruct w.
  - cbn [encodable_rows forallb] in Henc. apply andb_prop in Henc as [Hrow Hrows].
    cbn [Csv.writerows]. unfold io_bind, Csv.writerow.
    rewrite write_ok by now rewrite encodable_record. rewrite H. cbn [default].
    rewrite (IH _ (content ++ Csv.record_text row)); cbn [files net dirs stdout page].
    + rewrite insert_insert_eq. unfold table_text. cbn [List.map concat].
      now rewrite <- app_assoc.
    + exact Hrows.
    + apply lookup_insert_eq.
Qed.

Lemma writerows_inv (file : str) (rows : list (list str)) :
  forall (w : world) (r : result unit) (w' : world),
    Csv.writerows file rows w = (r, w') ->
    net w' = net w /\ dirs w' = dirs w /\ stdout w' = stdout w /\ page w' = page w
    /\ (forall k, k <> file -> files w' !! k = files w !! k)
    /\ (r = Ok tt -> encodable_rows rows = true).
Proof.
  induction rows as [|row rows IH]; intros w r w'.
  - cbn. unfold io_ret. intros [= <- <-]. repeat split.
  - cbn [Csv.writerows]. unfold io_bind, Csv.writerow.
    destruct (Os.write file (Csv.record_text row) w) as [r1 w1] eqn:Hw.
    destruct (write_inv _ _ _ _ _ Hw) as [(-> & Henc & ->) | ([c ->] & ->)].
    + intros H. destruct (IH _ _ _ H) as (Hn & Hd & Hs & Hp & Hf & Hr).
      cbn [net dirs stdout page files] in *. repeat split; try assumption.
      * intros k Hk. rewrite (Hf k Hk). now apply lookup_insert_ne.
      * intros Hok. cbn [encodable_rows forallb]. rewrite <- encodable_record, Henc.
        now apply Hr.
    + intros [= <- <-]. repeat split. discriminate.
Qed.

Lemma makedirs_added (name : str) (w : world) (r : result unit) (w' : world) :
  Os.makedirs name w = (r, w') ->
  dirs_added w w' (fun d => exists q, q `prefix_of` name /\ d = Os.key q).
Proof. apply makedirs_at_added. Qed.

(** A successful export: what succeeded on the way, and the world it
    leaves, in which the file holds the table and nothing else. *)
Lemma export_to_csv_inv self repos w w' :
  export_to_csv self repos w = (Ok tt, w') ->
  exists w0,
    Os.makedirs (output_dir self) w = (Ok tt, w0)
    /\ Os.open_w (output_file self) w0
       = (Ok (Os.key (output_file self)),
          World (net w0) (<[Os.key (output_file self) := []]> (files w0)) (dirs w0)
                (stdout w0) (page w0))
    /\ encodable_rows (header :: rows_of repos) = true
    /\ w' = World (net w)
                  (<[Os.key (output_file self) := table_text (header :: rows_of repos)]> (files w))
                  (dirs w0) (stdout w) (page w).
Proof.
  unfold export_to_csv, io_bind.
  destruct (Os.makedirs (output_dir self) w) as [[[]|e] w0] eqn:Hm; [|discriminate].
  destruct (makedirs_added _ _ _ _ Hm) as (Hn & Hf & Hs & Hp & _).
  destruct (Os.open_w (output_file self) w0) as [[k|e] w1] eqn:Ho; [|discriminate].
  destruct (open_w_inv _ _ _ _ Ho) as (-> & -> & _).
  unfold Csv.writerow.
  destruct (Os.write _ _ _) as [r2 w2] eqn:Hw.
  destruct (write_inv _ _ _ _ _ Hw) as [(-> & Henc & ->) | ([c ->] & ->)]; [|discriminate].
  cbn [files net dirs stdout page]. rewrite lookup_insert_eq. cbn [default app].
  rewrite insert_insert_eq. intros H.
  destruct (writerows_inv _ _ _ _ _ H) as (_ & _ & _ & _ & _ & Hrows).
  specialize (Hrows eq_refl). fold (rows_of repos) in Hrows, H.
  rewrite (writerows_ok _ _ _ (Csv.record_text header) Hrows) in H
    by (cbn [files]; apply lookup_insert_eq).
  cbn [files net dirs stdout page] in H. rewrite insert_insert_eq in H.
  injection H as <-. exists w0. split; [reflexivity|]. split; [exact Ho|].
  split.
  { change (forallb Os.encodable (Csv.record_text header) = true) in Henc.
    rewrite encodable_record in Henc. unfold encodable_rows in *. cbn [forallb].
    now rewrite Henc, Hrows. }
  rewrite Hn, Hf, Hs, Hp. reflexivity.
Qed.

Lemma export_to_csv_ok self repos w w0 k w1 :
  Os.makedirs (output_dir self) w = (Ok tt, w0) ->
  Os.open_w (output_file self) w0 = (Ok k, w1) ->
  encodable_rows (header :: rows_of repos) = true ->
  export_to_csv self repos w =
    (Ok tt, World (net w)
                  (<[Os.key (output_file self) := table_text (header :: rows_of repos)]> (files w))
                  (dirs w0) (stdout w) (page w)).
Proof.
  intros Hm Ho Henc. unfold export_to_csv, io_bind. rewrite Hm, Ho.
  destruct (makedirs_added _ _ _ _ Hm) as (Hn & Hf & Hs & Hp & _).
  destruct (open_w_inv _ _ _ _ Ho) as (-> & -> & _).
  cbn [encodable_rows forallb] in Henc. apply andb_prop in Henc as [Hh Hrows].
  unfold Csv.writerow. fold header. rewrite write_ok by now rewrite encodable_record.
  cbn [files net dirs stdout page]. rewrite lookup_insert_eq. cbn [default app].
  rewrite insert_insert_eq. fold (rows_of repos).
  rewrite (writerows_ok _ _ _ (Csv.record_text header) Hrows)
    by (cbn [files]; apply lookup_insert_eq).
  cbn [files net dirs stdout page]. rewrite insert_insert_eq.
  rewrite Hn, Hf, Hs, Hp. reflexivity.
Qed.

(** Whatever the outcome, an export prints and shows nothing, removes no
    directory and touches no file but its own. *)
Lemma export_to_csv_world self repos w r w' :
  export_to_csv self repos w = (r, w') ->
  net w' = net w /\ stdout w' = stdout w /\ page w' = page w
  /\ dirs w ⊆ dirs w'
  /\ (forall d, d ∈ dirs w' ->
        d ∈ dirs w \/ exists q, q `prefix_of` output_dir self /\ d = Os.key q)
  /\ (forall k, k <> Os.key (output_file self) -> files w' !! k = files w !! k).
Proof.
  unfold export_to_csv, io_bind.
  destruct (Os.makedirs (output_dir self) w) as [r0 w0] eqn:Hm.
  destruct (makedirs_added _ _ _ _ Hm) as (Hn & Hf & Hs & Hp & Hsub & Hnew).
  destruct r0 as [[]|e].
  2:{ intros [= <- <-]. rewrite Hf. auto 10. }
  destruct (Os.open_w (output_file self) w0) as [[k|e] w1] eqn:Ho.
  2:{ apply open_w_raise in Ho. subst w1. intros [= <- <-]. rewrite Hf. auto 10. }
  destruct (open_w_inv _ _ _ _ Ho) as (-> & -> & _).
  unfold Csv.writerow.
  destruct (Os.write _ _ _) as [r2 w2] eqn:Hw.
  destruct (write_inv _ _ _ _ _ Hw) as [(-> & Henc & ->) | ([c ->] & ->)].
  - intros H. destruct (writerows_inv _ _ _ _ _ H) as (Hn' & Hd' & Hs' & Hp' & Hf' & _).
    cbn [files net dirs stdout page] in *.
    split; [congruence|]. split; [congruence|]. split; [congruence|].
    rewrite Hd'. split; [exact Hsub|]. split; [exact Hnew|].
    intros k Hk. rewrite (Hf' k Hk), !lookup_insert_ne by congruence. now rewrite Hf.
  - intros [= <- <-]. cbn [files net dirs stdout page].
    split; [congruence|]. split; [congruence|]. split; [congruence|].
    split; [exact Hsub|]. split; [exact Hnew|].
    intros k Hk. rewrite lookup_insert_ne by congruence. now rewrite Hf.
Qed.

(** After a successful export the output file is read as the table, in
    every world with the files and directories the export has left. *)
Lemma export_to_csv_read self repos w w' :
  export_to_csv self repos w = (Ok tt, w') ->
  forall w2, files w2 = files w' -> dirs w2 = dirs w' ->
    Os.read_text (output_file self) w2 = Ok (table_text (header :: rows_of repos)).
Proof.
  intros H w2 Hf Hd. destruct (export_to_csv_inv _ _ _ _ H) as (w0 & _ & Ho & _ & ->).
  destruct (open_w_inv _ _ _ _ Ho) as (_ & _ & Hstat). cbn [files dirs] in Hf, Hd.
  unfold Os.read_text. rewrite Hstat; rewrite ?Hf; [|exact Hd|].
  - now rewrite lookup_insert_eq.
  - rewrite lookup_insert_eq. eauto.
Qed.

Lemma path_join_longer (d : str) :
  Os.path_join d (py "trending_repos.csv") <> d.
Proof.
  unfold Os.path_join. cbn [Py.is_prefix py]. intros E.
  apply (f_equal (@length N)) in E. revert E.
  change (Py.is_prefix (py "/") (py "trending_repos.csv")) with false. cbn iota.
  destruct (_ || _); rewrite ?length_app; cbn; lia.
Qed.

Lemma rows_within_limit (repos : list (str * str)) :
  repos_within_limit repos = true ->
  forallb (forallb within_limit) (header :: rows_of repos) = true.
Proof.
  intros H. cbn [forallb]. change (forallb within_limit header) with true. cbn [andb].
  induction repos as [|[name link] repos IH]; [reflexivity|].
  cbn [repos_within_limit forallb fst snd] in H. apply andb_prop in H as [Hr Hrest].
  cbn [rows_of List.map forallb fst snd]. rewrite andb_true_r, Hr. now apply IH.
Qed.

(** C6 (as amended).  For every list of entries whose names and links are
    at most 131072 characters long (the field size limit of the reader),
    whatever characters they hold (delimiters, quotes and line breaks
    included), a successful [export_to_csv] leaves a file that the table
    reader reads back as the header row followed by the entries, in their
    order.  Whatever the length of the fields, the file holds the text of
    the header row and of the entries and nothing else; this is so after
    an earlier export too: the file is overwritten, and only the entries of
    the last export are in it. *)
Theorem export_round_trip self repos w w1 :
  export_to_csv self repos w = (Ok tt, w1) ->
  Os.read_text (output_file self) w1 = Ok (table_text (header :: rows_of repos))
  /\ (repos_within_limit repos = true ->
        read_table w1 (output_file self)
        = Ok ([py "Repository Name"; py "Repository Link"]
              :: List.map (fun repo => [fst repo; snd repo]) repos))
  /\ (forall repos2 w2,
        export_to_csv self repos2 w1 = (Ok tt, w2) ->
        Os.read_text (output_file self) w2 = Ok (table_text (header :: rows_of repos2))
        /\ (repos_within_limit repos2 = true ->
              read_table w2 (output_file self) = Ok (header :: rows_of repos2))).
Proof.
  assert (Hread : forall rs wa wb, export_to_csv self rs wa = (Ok tt, wb) ->
            Os.read_text (output_file self) wb = Ok (table_text (header :: rows_of rs))
            /\ (repos_within_limit rs = true ->
                  read_table wb (output_file self) = Ok (header :: rows_of rs))).
  { intros rs wa wb H. pose proof (export_to_csv_read _ _ _ _ H wb eq_refl eq_refl) as Hr.
    split; [exact Hr|]. intros Hlim. unfold read_table. rewrite Hr. cbn [bind].
    apply reader_table_text. now apply rows_within_limit. }
  intros H. destruct (Hread _ _ _ H) as [H1 H2].
  split; [exact H1|]. split; [exact H2|]. intros repos2 w2. apply Hread.
Qed.

(** ** The library models on small inputs *)

Example strip_both_ends :
  Py.strip (py "  a b " ++ [10%N]) = py "a b".
Proof. vm_compute. reflexivity. Qed.

Example replace_examples :
  Py.replace (py " ") (py "") (py "ab cd  e") = py "abcde"
  /\ Py.replace (py "aa") (py "b") (py "aaa") = py "ba"
  /\ Py.replace (py "") (py "-") (py "abc") = py "-a-b-c-".
Proof. repeat split. Qed.

Example str_of_int_examples :
  Requests.str_of_int 404 = py "404" /\ Requests.str_of_int (-12) = py "-12".
Proof. split; reflexivity. Qed.

Example path_join_examples :
  Os.path_join (py "data") (py "trending_repos.csv") = py "data/trending_repos.csv"
  /\ Os.path_join (py "") (py "x") = py "x"
  /\ Os.path_join (py "a/") (py "x") = py "a/x"
  /\ Os.path_join (py "a") (py "/x") = py "/x".
Proof. repeat split. Qed.

Example split_examples :
  Os.split (py "a/b") = (py "a", py "b")
  /\ Os.split (py "a//b") = (py "a", py "b")
  /\ Os.split (py "a/b/") = (py "a/b", py "")
  /\ Os.split (py "/a") = (py "/", py "a")
  /\ Os.split (py "///") = (py "///", py "")
  /\ Os.split (py "a") = (py "", py "a").
Proof. repeat split. Qed.

Example key_examples :
  Os.key (py "data/trending_repos.csv") = py "data/trending_repos.csv"
  /\ Os.key (py "./d/../d//out.csv") = py "d/out.csv"
  /\ Os.key (py "/a/../../b/") = py "/b"
  /\ Os.key (py "../x/..") = py "..".
Proof. repeat split. Qed.

(** [makedirs] makes the directories on the way, and stops at a regular
    file; the directories made before it stay. *)
Example makedirs_examples :
  fst (Os.makedirs (py "a/b//c/") world_d_f) = Ok tt
  /\ dirs (snd (Os.makedirs (py "a/b//c/") world_d_f))
     = list_to_set [py "a"; py "a/b"; py "a/b/c"; py "d"]
  /\ Os.makedirs (py "d/.") world_d_f = (Ok tt, world_d_f)
  /\ Os.makedirs (py "") world_d_f = (Raise (FileNotFoundError (py "")), world_d_f)
  /\ Os.makedirs (py "f") world_d_f = (Raise (FileExistsError (py "f")), world_d_f)
  /\ Os.makedirs (py "f/") world_d_f = (Raise (FileExistsError (py "f/")), world_d_f)
  /\ Os.makedirs (py "f/sub/x") world_d_f
     = (Raise (NotADirectoryError (py "f/sub")), world_d_f)
  /\ fst (Os.makedirs (py "m/../f/x") world_d_f) = Raise (NotADirectoryError (py "m/../f/x"))
  /\ dirs (snd (Os.makedirs (py "m/../f/x") world_d_f)) = list_to_set [py "d"; py "m"]
  /\ fst (Os.makedirs (py "m/../f/.") world_d_f) = Ok tt.
Proof. repeat split; vm_compute; reflexivity. Qed.

Example open_w_examples :
  fst (Os.open_w (py "d/out.csv") world_d_f) = Ok (py "d/out.csv")
  /\ fst (Os.open_w (py "./d/../d//out.csv") world_d_f) = Ok (py "d/out.csv")
  /\ fst (Os.open_w (py "m/out.csv") world_d_f) = Raise (FileNotFoundError (py "m/out.csv"))
  /\ fst (Os.open_w (py "f/out.csv") world_d_f) = Raise (NotADirectoryError (py "f/out.csv"))
  /\ fst (Os.open_w (py "d") world_d_f) = Raise (IsADirectoryError (py "d"))
  /\ fst (Os.open_w (py "d/") world_d_f) = Raise (IsADirectoryError (py "d/"))
  /\ fst (Os.open_w (py "f") world_d_f) = Ok (py "f")
  /\ files (snd (Os.open_w (py "f") world_d_f)) !! py "f" = Some [].
Proof. repeat split; vm_compute; reflexivity. Qed.

(** A lone surrogate stops the export at its row; the rows before it are
    in the file. *)
Example write_surrogate_example :
  fst (export_to_csv default_scraper (sample_repos2 ++ surrogate_repos) world_empty)
  = Raise (UnicodeEncodeError 55357%N)
  /\ Os.read_text (py "data/trending_repos.csv")
       (snd (export_to_csv default_scraper (sample_repos2 ++ surrogate_repos) world_empty))
     = Ok (py "Repository Name,Repository Link" ++ [13%N; 10%N]
           ++ py "baz,https://x/baz" ++ [13%N; 10%N]).
Proof. split; vm_compute; reflexivity. Qed.

Example slice_to_examples :
  Py.slice_to 2 [1; 2; 3] = [1; 2] /\ Py.slice_to 5 [1; 2; 3] = [1; 2; 3]
  /\ Py.slice_to 0 [1; 2; 3] = [] /\ Py.slice_to (-1) [1; 2; 3] = [1; 2]
  /\ Py.slice_to (-7) [1; 2; 3] = [].
Proof. repeat split. Qed.

(** An anchor is selected only below an [h2.h3] below an [article.Box-row],
    at any depth, and the selected anchors come in document order. *)
Example select_examples :
  Bs4.select selector [node_of anchor_gpt] = []
  /\ Bs4.select selector
       [Bs4.Tag (py "article") (attrs_of [(py "class", py "Box-row")])
          [Bs4.Tag (py "h2") ∅ [node_of anchor_gpt]]] = []
  /\ Bs4.select selector
       [Bs4.Tag (py "article") (attrs_of [(py "class", py "Box-row border")])
          [Bs4.Tag (py "div") ∅
             [Bs4.Tag (py "h2") (attrs_of [(py "class", py "h3 lh-condensed")])
                [Bs4.Tag (py "span") ∅ [node_of anchor_gpt]; node_of anchor_bare]]]]
     = [anchor_gpt; anchor_bare].
Proof. repeat split; vm_compute; reflexivity. Qed.

Example get_text_examples :
  Bs4.get_text anchor_trending = py "owner /" ++ [10%N] ++ py "      repo"
  /\ Bs4.get_text_strip anchor_trending = py "owner /repo".
Proof. split; vm_compute; reflexivity. Qed.

Example record_text_example :
  Csv.record_text [py "foo,bar"; py "https://x/foo"]
  = [34%N] ++ py "foo,bar" ++ [34%N] ++ py ",https://x/foo" ++ [13%N; 10%N].
Proof. vm_compute. reflexivity. Qed.

Example readlines_example :
  Os.readlines (py "a" ++ [13%N; 10%N] ++ py "b" ++ [13%N] ++ py "c" ++ [10%N] ++ py "d")
  = [py "a" ++ [13%N; 10%N]; py "b" ++ [13%N]; py "c" ++ [10%N]; py "d"].
Proof. vm_compute. reflexivity. Qed.

(** ** The claims on sample inputs *)

(** Two matches, one entry asked for, the first match well formed. *)
Lemma parse_repositories_count_witness :
  bs_gpt_bare html_gpt_bare = Ok soup_gpt_bare
  /\ 0 < max_repos (with_max 1)
  /\ forallb has_href (take 1 (Bs4.select selector soup_gpt_bare)) = true
  /\ exists repos,
       parse_repositories bs_gpt_bare (with_max 1) html_gpt_bare = Ok repos
       /\ length repos = 1%nat.
Proof.
  assert (Hs : bs_gpt_bare html_gpt_bare = Ok soup_gpt_bare) by (vm_compute; reflexivity).
  split; [exact Hs|]. split; [reflexivity|]. split; [vm_compute; reflexivity|].
  destruct (parse_repositories_count bs_gpt_bare (with_max 1) html_gpt_bare soup_gpt_bare)
    as (repos & H1 & H2 & _); [exact Hs | reflexivity | vm_compute; reflexivity |].
  exists repos. split; [exact H1 | exact H2].
Defined.

(** C1 as stated fails: one match, one entry asked for, and the parser
    raises instead of returning one entry, the match having no [href]. *)
Lemma count_fails_without_href :
  bs_bare html_bare = Ok soup_bare
  /\ length (Bs4.select selector soup_bare) = 1%nat
  /\ 0 < max_repos (with_max 1)
  /\ parse_repositories bs_bare (with_max 1) html_bare = Raise (KeyError (py "href"))
  /\ ~ (exists repos,
          parse_repositories bs_bare (with_max 1) html_bare = Ok repos
          /\ length repos = Nat.min 1 (Z.to_nat (max_repos (with_max 1)))).
Proof.
  split; [vm_compute; reflexivity|]. split; [vm_compute; reflexivity|]. split; [reflexivity|].
  assert (H : parse_repositories bs_bare (with_max 1) html_bare = Raise (KeyError (py "href")))
    by (vm_compute; reflexivity).
  split; [exact H|]. intros (repos & Hr & _). rewrite H in Hr. discriminate.
Qed.

(** The link text of the specification's example. *)
Lemma name_of_anchor_witness :
  bs_gpt_bare html_gpt_bare = Ok soup_gpt_bare
  /\ anchors_of (with_max 1) soup_gpt_bare !! 0%nat = Some anchor_gpt
  /\ has_href anchor_gpt = true
  /\ Bs4.get_text anchor_gpt = py "Open AI / gpt"
  /\ exists name link,
       repository_of anchor_gpt = Ok (name, link)
       /\ name = py "OpenAI/gpt"
       /\ name = name_by_spec anchor_gpt.
Proof.
  assert (Hs : bs_gpt_bare html_gpt_bare = Ok soup_gpt_bare) by (vm_compute; reflexivity).
  assert (H1 : anchors_of (with_max 1) soup_gpt_bare !! 0%nat = Some anchor_gpt)
    by (vm_compute; reflexivity).
  assert (H2 : has_href anchor_gpt = true) by (vm_compute; reflexivity).
  split; [exact Hs|]. split; [exact H1|]. split; [exact H2|].
  split; [vm_compute; reflexivity|].
  destruct (name_of_anchor bs_gpt_bare (with_max 1) html_gpt_bare soup_gpt_bare 0 anchor_gpt
              Hs H1 H2) as (name & link & Hr & Hn & Hone & _).
  exists name, link. split; [exact Hr|]. split.
  - rewrite Hn. vm_compute. reflexivity.
  - apply (Hone (py "Open AI / gpt")). vm_compute. reflexivity.
Defined.

(** C2 as stated fails on the anchor of a row of the trending page: its text
    content has a line break between the owner and the repository name,
    which trimming the ends and removing the spaces would keep, and the
    name has none. *)
Lemma name_is_not_trimmed_text_content :
  bs_trending html_trending = Ok soup_trending
  /\ anchors_of default_scraper soup_trending = [anchor_trending]
  /\ parse_repositories bs_trending default_scraper html_trending
     = Ok [(py "owner/repo", py "https://github.com/owner/repo")]
  /\ name_by_spec anchor_trending = py "owner/" ++ [10%N] ++ py "repo"
  /\ py "owner/repo" <> name_by_spec anchor_trending.
Proof.
  assert (H : name_by_spec anchor_trending = py "owner/" ++ [10%N] ++ py "repo")
    by (vm_compute; reflexivity).
  split; [vm_compute; reflexivity|].
  split; [vm_compute; reflexivity|]. split; [vm_compute; reflexivity|].
  split; [exact H|]. rewrite H. vm_compute. discriminate.
Qed.

(** The only match has no [href]. *)
Lemma parse_repositories_missing_href_witness :
  bs_bare html_bare = Ok soup_bare
  /\ anchors_of (with_max 1) soup_bare !! 0%nat = Some anchor_bare
  /\ has_href anchor_bare = false
  /\ parse_repositories bs_bare (with_max 1) html_bare = Raise (KeyError (py "href")).
Proof.
  assert (Hs : bs_bare html_bare = Ok soup_bare) by (vm_compute; reflexivity).
  assert (H1 : anchors_of (with_max 1) soup_bare !! 0%nat = Some anchor_bare)
    by (vm_compute; reflexivity).
  assert (H2 : has_href anchor_bare = false) by (vm_compute; reflexivity).
  split; [exact Hs|]. split; [exact H1|]. split; [exact H2|].
  exact (proj1 (parse_repositories_missing_href bs_bare (with_max 1) html_bare soup_bare 0
                  anchor_bare Hs H1 H2)).
Defined.

(** C3 as stated fails: the second match has no [href], one entry is asked
    for, and the parser returns the entry of the first match. *)
Lemma missing_href_after_max_repos :
  bs_gpt_bare html_gpt_bare = Ok soup_gpt_bare
  /\ Bs4.select selector soup_gpt_bare !! 1%nat = Some anchor_bare
  /\ has_href anchor_bare = false
  /\ parse_repositories bs_gpt_bare (with_max 1) html_gpt_bare = Ok [repo_gpt]
  /\ ~ raises (parse_repositories bs_gpt_bare (with_max 1) html_gpt_bare).
Proof.
  assert (H : parse_repositories bs_gpt_bare (with_max 1) html_gpt_bare = Ok [repo_gpt])
    by (vm_compute; reflexivity).
  split; [vm_compute; reflexivity|].
  split; [vm_compute; reflexivity|]. split; [vm_compute; reflexivity|].
  split; [exact H|]. intros [e He]. rewrite H in He. discriminate.
Qed.

(** A timeout, a 404 and a 200. *)
Lemma fetch_html_outcome_witness :
  fetch_html default_scraper world_timing_out
    = (Raise (SystemExit (py "Failed to fetch data: Read timed out. (read timeout=10)")),
       world_timing_out)
  /\ fetch_html default_scraper (world_answering 404)
     = (Raise (SystemExit
          (py "Failed to fetch data: 404 Client Error: Not Modified for url: https://github.com/trending")),
        world_answering 404)
  /\ fetch_html default_scraper (world_answering 200)
     = (Ok html_gpt_bare, world_answering 200).
Proof.
  destruct (fetch_html_outcome default_scraper world_timing_out) as (Ha & _ & _).
  destruct (fetch_html_outcome default_scraper (world_answering 404)) as (_ & Hb & _).
  destruct (fetch_html_outcome default_scraper (world_answering 200)) as (_ & _ & Hc).
  split.
  { exact (Ha {| Requests.exc_class := Requests.ReadTimeout;
                 Requests.exc_str := py "Read timed out. (read timeout=10)" |} eq_refl). }
  split.
  - destruct (Hb (sample_response 404) eq_refl) as (e & He & _ & Hf);
      [cbn; lia|].
    vm_compute in He. injection He as <-. exact Hf.
  - apply (Hc (sample_response 200) eq_refl). cbn. lia.
Defined.

(** C4 as stated fails: the status 304 is not a success status, and
    [fetch_html] returns the body of the response. *)
Lemma not_modified_is_returned :
  net (world_answering 304) (url default_scraper) 10 = Requests.Done (sample_response 304)
  /\ ~ 200 <= Requests.status_code (sample_response 304) < 300
  /\ fetch_html default_scraper (world_answering 304)
     = (Ok (Requests.text (sample_response 304)), world_answering 304).
Proof.
  split; [reflexivity|]. split; [cbn; lia|]. vm_compute. reflexivity.
Qed.

(** A run whose GET times out. *)
Lemma fetch_failure_aborts_witness :
  run bs_gpt_bare default_scraper world_timing_out
    = (Raise (SystemExit (py "Failed to fetch data: Read timed out. (read timeout=10)")),
       world_timing_out)
  /\ files (snd (run bs_gpt_bare default_scraper world_timing_out)) = ∅.
Proof.
  destruct (fetch_failure_aborts bs_gpt_bare default_scraper world_timing_out
              (SystemExit (py "Failed to fetch data: Read timed out. (read timeout=10)"))
              eq_refl) as (H1 & H2 & _).
  split; [exact H1 | exact H2].
Defined.

(** Two exports into an empty file system. *)
Lemma export_round_trip_witness :
  export_to_csv default_scraper sample_repos world_empty = (Ok tt, world_exported)
  /\ repos_within_limit sample_repos = true
  /\ read_table world_exported (py "data/trending_repos.csv")
     = Ok ([py "Repository Name"; py "Repository Link"]
           :: [ [py "foo,bar"; py "https://x/foo"];
                [py "say " ++ [34%N] ++ py "hi" ++ [34%N];
                 py "https://x/" ++ [13%N; 10%N] ++ py "bar"] ])
  /\ export_to_csv default_scraper sample_repos2 world_exported = (Ok tt, world_exported_twice)
  /\ read_table world_exported_twice (py "data/trending_repos.csv")
     = Ok [[py "Repository Name"; py "Repository Link"]; [py "baz"; py "https://x/baz"]].
Proof.
  assert (H1 : export_to_csv default_scraper sample_repos world_empty = (Ok tt, world_exported))
    by (vm_compute; reflexivity).
  assert (H2 : export_to_csv default_scraper sample_repos2 world_exported
               = (Ok tt, world_exported_twice)) by (vm_compute; reflexivity).
  assert (L1 : repos_within_limit sample_repos = true) by (vm_compute; reflexivity).
  assert (L2 : repos_within_limit sample_repos2 = true) by (vm_compute; reflexivity).
  destruct (export_round_trip default_scraper sample_repos world_empty world_exported H1)
    as (_ & Hr & Hover).
  split; [exact H1|]. split; [exact L1|]. split; [exact (Hr L1)|]. split; [exact H2|].
  exact (proj2 (Hover sample_repos2 world_exported_twice H2) L2).
Defined.

Lemma existsb_repeat {A} (f : A -> bool) (a : A) (n : nat) :
  f a = false -> existsb f (repeat a n) = false.
Proof. intros H. induction n as [|n IH]; [reflexivity|]. cbn. now rewrite H, IH. Qed.

Lemma forallb_repeat {A} (f : A -> bool) (a : A) (n : nat) :
  f a = true -> forallb f (repeat a n) = true.
Proof. intros H. induction n as [|n IH]; [reflexivity|]. cbn. now rewrite H, IH. Qed.

(** C6 as stated fails: an entry whose name has 131073 characters is
    exported, and the table reader stops at it with an error instead of
    giving the rows back. *)
Lemma long_field_not_read_back :
  length long_name = Z.to_nat 131073
  /\ exists w1,
       export_to_csv default_scraper long_repos world_empty = (Ok tt, w1)
       /\ read_table w1 (output_file default_scraper)
          = Raise (CsvError (py "field larger than field limit (131072)"))
       /\ read_table w1 (output_file default_scraper) <> Ok (header :: rows_of long_repos).
Proof.
  split; [apply repeat_length|].
  assert (Hplain : existsb Csv.special long_name = false) by now apply existsb_repeat.
  assert (Hm : Os.makedirs (output_dir default_scraper) world_empty
               = (Ok tt, snd (Os.makedirs (output_dir default_scraper) world_empty)))
    by (vm_compute; reflexivity).
  assert (Ho : Os.open_w (output_file default_scraper)
                 (snd (Os.makedirs (output_dir default_scraper) world_empty))
               = (Ok (py "data/trending_repos.csv"),
                  snd (Os.open_w (output_file default_scraper)
                         (snd (Os.makedirs (output_dir default_scraper) world_empty)))))
    by (vm_compute; reflexivity).
  assert (Henc : encodable_rows (header :: rows_of long_repos) = true).
  { unfold encodable_rows, long_repos. cbn [rows_of List.map forallb fst snd].
    unfold long_name. rewrite forallb_repeat by reflexivity. reflexivity. }
  pose proof (export_to_csv_ok default_scraper long_repos _ _ _ _ Hm Ho Henc) as He.
  eexists. split; [exact He|].
  match goal with |- ?l = ?r /\ _ => assert (Hr : l = r) end.
  2:{ split; [exact Hr|]. rewrite Hr. discriminate. }
  unfold read_table. rewrite (export_to_csv_read _ _ _ _ He _ eq_refl eq_refl). cbn [bind].
  rewrite reader_stream. unfold table_text. cbn [rows_of long_repos List.map concat fst snd].
  rewrite stream_record by reflexivity.
  unfold Csv.record_text. rewrite bool_decide_eq_false_2 by discriminate.
  cbn [Csv.join_fields]. unfold Csv.join_append at 1. rewrite Hplain.
  rewrite <- !app_assoc.
  rewrite stream_overflow; [reflexivity | exact Hplain |].
  unfold long_name. rewrite repeat_length, Z2Nat.id by (unfold Csv.field_limit; lia). lia.
Qed.

(** The relative path of the specification's example, in a page whose two
    anchors carry an [href]. *)
Lemma link_of_relative_path_witness :
  bs_two html_two = Ok soup_two
  /\ Bs4.select selector soup_two !! 0%nat = Some anchor_gpt
  /\ Bs4.el_attrs anchor_gpt !! py "href" = Some (py "/owner/repo")
  /\ anchors_of (with_max 2) soup_two !! 0%nat = Some anchor_gpt
  /\ exists repos,
       parse_repositories bs_two (with_max 2) html_two = Ok repos
       /\ repos !! 0%nat = Some (py "OpenAI/gpt", py "https://github.com/owner/repo").
Proof.
  assert (Hs : bs_two html_two = Ok soup_two) by (vm_compute; reflexivity).
  assert (H0 : Bs4.select selector soup_two !! 0%nat = Some anchor_gpt)
    by (vm_compute; reflexivity).
  assert (H1 : anchors_of (with_max 2) soup_two !! 0%nat = Some anchor_gpt)
    by (vm_compute; reflexivity).
  assert (H2 : Bs4.el_attrs anchor_gpt !! py "href"
               = Some (py "/" ++ py "owner" ++ py "/" ++ py "repo"))
    by (vm_compute; reflexivity).
  split; [exact Hs|]. split; [exact H0|]. split; [exact H2|]. split; [exact H1|].
  destruct (link_of_relative_path bs_two (with_max 2) html_two soup_two 0 anchor_gpt
              (py "owner") (py "repo") Hs H0 H2) as (name & Hr & Hin).
  destruct (Hin 0%nat H1) as (_ & Hall).
  destruct Hall as (repos & Hp & Hi); [vm_compute; reflexivity|].
  exists repos. split; [exact Hp|]. rewrite Hi. f_equal.
  vm_compute in Hr. injection Hr as <-. reflexivity.
Defined.

(** [max_repos = 0], [max_repos = -1] on two matches, and a text the parser
    rejects. *)
Lemma parse_repositories_nonpositive_witness :
  bs_gpt_bare html_gpt_bare = Ok soup_gpt_bare
  /\ parse_repositories bs_gpt_bare (with_max 0) html_gpt_bare = Ok []
  /\ anchors_of (with_max (-1)) soup_gpt_bare = [anchor_gpt]
  /\ (exists repos,
        parse_repositories bs_gpt_bare (with_max (-1)) html_gpt_bare = Ok repos
        /\ length repos = 1%nat)
  /\ bs_rejecting html_rejected = Raise rejection
  /\ parse_repositories bs_rejecting (with_max 0) html_rejected = Raise rejection.
Proof.
  assert (Hs : bs_gpt_bare html_gpt_bare = Ok soup_gpt_bare) by (vm_compute; reflexivity).
  assert (Hrej : bs_rejecting html_rejected = Raise rejection) by (vm_compute; reflexivity).
  destruct (parse_repositories_nonpositive bs_gpt_bare (with_max 0) html_gpt_bare)
    as (H0 & _).
  destruct (parse_repositories_nonpositive bs_gpt_bare (with_max (-1)) html_gpt_bare)
    as (Hneg & _).
  destruct (parse_repositories_nonpositive bs_rejecting (with_max 0) html_rejected)
    as (_ & Hr).
  split; [exact Hs|].
  split; [exact (proj1 (H0 _ Hs) eq_refl)|].
  destruct (proj2 (Hneg _ Hs) 1%nat (Nat.lt_0_1) eq_refl) as (Ha & Hp).
  split; [rewrite Ha; vm_compute; reflexivity|].
  split.
  - destruct Hp as (repos & Hrepos & Hl & _); [vm_compute; reflexivity|].
    exists repos. split; [exact Hrepos | exact Hl].
  - split; [exact Hrej | exact (Hr _ Hrej)].
Defined.

(** C8 as stated fails.  With [max_repos = -1] and two matches the parser
    runs over the first match, which has no [href] here, and raises; and
    with [max_repos = 0] it raises for a text the HTML parser rejects. *)
Lemma nonpositive_max_repos_raises :
  max_repos (with_max (-1)) <= 0
  /\ bs_bare_gpt html_bare_gpt = Ok soup_bare_gpt
  /\ anchors_of (with_max (-1)) soup_bare_gpt = [anchor_bare]
  /\ parse_repositories bs_bare_gpt (with_max (-1)) html_bare_gpt
     = Raise (KeyError (py "href"))
  /\ raises (parse_repositories bs_bare_gpt (with_max (-1)) html_bare_gpt)
  /\ max_repos (with_max 0) = 0
  /\ bs_rejecting html_rejected = Raise rejection
  /\ parse_repositories bs_rejecting (with_max 0) html_rejected = Raise rejection
  /\ parse_repositories bs_rejecting (with_max 0) html_rejected <> Ok [].
Proof.
  assert (H : parse_repositories bs_bare_gpt (with_max (-1)) html_bare_gpt
              = Raise (KeyError (py "href"))) by (vm_compute; reflexivity).
  assert (H0 : parse_repositories bs_rejecting (with_max 0) html_rejected = Raise rejection)
    by (vm_compute; reflexivity).
  split; [cbn; lia|]. split; [vm_compute; reflexivity|].
  split; [vm_compute; reflexivity|]. split; [exact H|].
  split; [eexists; exact H|]. split; [reflexivity|].
  split; [vm_compute; reflexivity|]. split; [exact H0|].
  rewrite H0. discriminate.
Qed.

(** An [href] that is an absolute URL, in a page of one anchor. *)
Lemma link_prefix_unconditional_witness :
  bs_absolute html_absolute = Ok soup_absolute
  /\ anchors_of default_scraper soup_absolute !! 0%nat = Some anchor_absolute
  /\ Bs4.el_attrs anchor_absolute !! py "href" = Some (py "https://example.com/x")
  /\ exists repos,
       parse_repositories bs_absolute default_scraper html_absolute = Ok repos
       /\ repos !! 0%nat = Some (py "x", py "https://github.comhttps://example.com/x").
Proof.
  assert (Hs : bs_absolute html_absolute = Ok soup_absolute) by (vm_compute; reflexivity).
  assert (H1 : anchors_of default_scraper soup_absolute !! 0%nat = Some anchor_absolute)
    by (vm_compute; reflexivity).
  assert (H2 : Bs4.el_attrs anchor_absolute !! py "href" = Some (py "https://example.com/x"))
    by (vm_compute; reflexivity).
  split; [exact Hs|]. split; [exact H1|]. split; [exact H2|].
  destruct (link_prefix_unconditional bs_absolute default_scraper html_absolute soup_absolute 0
              anchor_absolute (py "https://example.com/x") Hs H1 H2)
    as (name & link & Hr & _ & _ & Habs & _ & Hall).
  destruct Hall as (repos & Hp & Hi); [vm_compute; reflexivity|].
  exists repos. split; [exact Hp|]. rewrite Hi.
  rewrite (Habs (py "example.com/x") eq_refl). f_equal. f_equal.
  vm_compute in Hr. injection Hr as <- _. reflexivity.
Defined.

(** C9 as stated fails: the second matched anchor lies beyond the first
    [max_repos = 1] matches, the parser does not run over it, and no link
    is made from its [href]. *)
Lemma unprocessed_anchor_gets_no_link :
  bs_gpt_absolute html_gpt_absolute = Ok soup_gpt_absolute
  /\ Bs4.select selector soup_gpt_absolute !! 1%nat = Some anchor_absolute
  /\ Bs4.el_attrs anchor_absolute !! py "href" = Some (py "https://example.com/x")
  /\ parse_repositories bs_gpt_absolute (with_max 1) html_gpt_absolute = Ok [repo_gpt]
  /\ ~ In (py "https://github.com" ++ py "https://example.com/x") (List.map snd [repo_gpt]).
Proof.
  split; [vm_compute; reflexivity|]. split; [vm_compute; reflexivity|].
  split; [vm_compute; reflexivity|]. split; [vm_compute; reflexivity|].
  intros [H | []]. vm_compute in H. discriminate.
Qed.

(** A text that is no markup at all, and a page whose matches all carry an
    [href]. *)
Lemma parse_repositories_total_witness :
  bs_plain text_plain = Ok soup_plain
  /\ forallb has_href (Bs4.select selector soup_plain) = true
  /\ parse_repositories bs_plain default_scraper text_plain = Ok []
  /\ bs_two html_two = Ok soup_two
  /\ forallb has_href (Bs4.select selector soup_two) = true
  /\ parse_repositories bs_two (with_max 2) html_two
     = Ok [repo_gpt; (py "owner/repo", py "https://github.com/owner/repo")].
Proof.
  assert (S1 : bs_plain text_plain = Ok soup_plain) by (vm_compute; reflexivity).
  assert (S2 : bs_two html_two = Ok soup_two) by (vm_compute; reflexivity).
  assert (H1 : forallb has_href (Bs4.select selector soup_plain) = true)
    by (vm_compute; reflexivity).
  assert (H2 : forallb has_href (Bs4.select selector soup_two) = true)
    by (vm_compute; reflexivity).
  destruct (parse_repositories_total bs_plain default_scraper text_plain) as (Ha & _).
  destruct (parse_repositories_total bs_two (with_max 2) html_two) as (Hb & _).
  split; [exact S1|]. split; [exact H1|]. split.
  - apply (proj2 (Ha _ S1 H1)). vm_compute. reflexivity.
  - split; [exact S2|]. split; [exact H2|].
    destruct (proj1 (Hb _ S2 H2)) as (repos & Hr). rewrite Hr. f_equal.
    vm_compute in Hr. injection Hr as <-. reflexivity.
Defined.

(** C10 as stated fails: the HTML parser rejects the text, so that no
    element is matched at all, and the call raises. *)
Lemma rejected_markup_raises :
  bs_rejecting html_rejected = Raise rejection
  /\ (forall soup, bs_rejecting html_rejected = Ok soup ->
        forallb has_href (Bs4.select selector soup) = true)
  /\ parse_repositories bs_rejecting default_scraper html_rejected = Raise rejection
  /\ ~ (exists repos, parse_repositories bs_rejecting default_scraper html_rejected = Ok repos).
Proof.
  assert (Hs : bs_rejecting html_rejected = Raise rejection) by (vm_compute; reflexivity).
  assert (H : parse_repositories bs_rejecting default_scraper html_rejected = Raise rejection)
    by (vm_compute; reflexivity).
  split; [exact Hs|]. split; [intros soup E; rewrite Hs in E; discriminate|].
  split; [exact H|]. intros (repos & Hr). rewrite H in Hr. discriminate.
Qed.

(** * Further properties of the scraper *)

(** ** [__init__] *)

(** X1.  [__init__] stores its arguments, and puts the output file inside
    the output directory: the path is the directory, a separator unless the
    directory is empty or ends with one, and [trending_repos.csv]; it is
    never the directory itself. *)
Theorem init_output_file (u d : str) (m : Z) :
  url (init u d m) = u /\ output_dir (init u d m) = d /\ max_repos (init u d m) = m
  /\ (d = [] \/ last d = Some 47%N ->
        output_file (init u d m) = d ++ py "trending_repos.csv")
  /\ (d <> [] -> last d <> Some 47%N ->
        output_file (init u d m) = d ++ py "/trending_repos.csv")
  /\ output_file (init u d m) <> output_dir (init u d m).
Proof.
  repeat split; cbn [init output_file output_dir].
  - intros H. unfold Os.path_join.
    change (Py.is_prefix (py "/") (py "trending_repos.csv")) with false. cbn iota.
    destruct H as [-> | H]; [reflexivity|].
    rewrite (bool_decide_eq_true_2 _ H). now rewrite orb_true_r.
  - intros H1 H2. unfold Os.path_join.
    change (Py.is_prefix (py "/") (py "trending_repos.csv")) with false. cbn iota.
    rewrite (bool_decide_eq_false_2 _ H1), (bool_decide_eq_false_2 _ H2). reflexivity.
  - apply path_join_longer.
Qed.

(** ** [export_to_csv] *)

(** X2.  A successful export touches nothing but its own file and the
    directories on the way to the output directory: every other file
    keeps its content, no directory is removed, every new directory is
    named by an initial part of the path of the output directory, none is
    new when the output directory existed already, and nothing is
    printed or shown. *)
Theorem export_to_csv_frame self repos w w' :
  export_to_csv self repos w = (Ok tt, w') ->
  (forall k, k <> Os.key (output_file self) -> files w' !! k = files w !! k)
  /\ dirs w ⊆ dirs w'
  /\ (forall d, d ∈ dirs w' ->
        d ∈ dirs w \/ exists q, q `prefix_of` output_dir self /\ d = Os.key q)
  /\ (Os.path_isdir (output_dir self) w = true -> dirs w' = dirs w)
  /\ stdout w' = stdout w /\ page w' = page w /\ net w' = net w.
Proof.
  intros H. destruct (export_to_csv_world _ _ _ _ _ H) as (Hn & Hs & Hp & Hsub & Hnew & Hf).
  repeat split; try assumption.
  intros Hdir. destruct (export_to_csv_inv _ _ _ _ H) as (w0 & Hm & _ & _ & ->).
  cbn [dirs]. f_equal. unfold Os.makedirs in Hm.
  apply (makedirs_at_settled _ _ _ _ _ (stat_covered _ _ (isdir_exists _ _ Hdir)) Hm).
Qed.

(** X3.  The last export wins: after a successful export, a second
    successful export leaves exactly the world it would have left without
    the first; exporting the same entries twice is exporting them once. *)
Theorem export_to_csv_last_wins self repos1 repos2 w w1 w2 :
  export_to_csv self repos1 w = (Ok tt, w1) ->
  export_to_csv self repos2 w1 = (Ok tt, w2) ->
  export_to_csv self repos2 w = (Ok tt, w2)
  /\ (repos1 = repos2 -> w2 = w1).
Proof.
  intros H1 H2.
  destruct (export_to_csv_inv _ _ _ _ H1) as (w0 & Hm1 & Ho1 & _ & E1).
  destruct (export_to_csv_inv _ _ _ _ H2) as (w0' & Hm2 & _ & Henc2 & E2).
  destruct (makedirs_added _ _ _ _ Hm1) as (_ & Hf0 & _ & _ & _).
  (* the directories are all there after the first export *)
  assert (Hcov : covered w1 (Os.is_abs (output_dir self)) [] (Os.components (output_dir self))).
  { apply (covered_mono w0).
    - rewrite E1. reflexivity.
    - intros k Hk. rewrite E1. cbn [files]. rewrite Hf0 in Hk.
      destruct (decide (k = Os.key (output_file self))) as [-> | Hne];
        [rewrite lookup_insert_eq; eauto | now rewrite lookup_insert_ne].
    - apply (makedirs_at_covered _ _ _ _ _ (Nat.le_refl _) Hm1). now left. }
  assert (Hw0 : w0' = w1) by exact (makedirs_at_settled _ _ _ _ _ Hcov Hm2).
  assert (Ew : w2 = World (net w)
                 (<[Os.key (output_file self) := table_text (header :: rows_of repos2)]> (files w))
                 (dirs w0) (stdout w) (page w)).
  { rewrite E2, Hw0, E1. cbn [files dirs stdout page net]. now rewrite insert_insert_eq. }
  split.
  - rewrite Ew. exact (export_to_csv_ok _ _ _ _ _ _ Hm1 Ho1 Henc2).
  - intros <-. now rewrite Ew, E1.
Qed.

(** ** [parse_repositories] *)

Lemma parse_anchors_complete (anchors : list Bs4.element) (l : list (str * str)) :
  Forall2 (fun a r => repository_of a = Ok r) anchors l ->
  forall acc, parse_anchors anchors acc = Ok (acc ++ l).
Proof.
  induction 1 as [|a r anchors l Hr _ IH]; intros acc; cbn [parse_anchors].
  - now rewrite app_nil_r.
  - rewrite Hr. cbn [bind]. rewrite IH. now rewrite <- app_assoc.
Qed.

Lemma parse_anchors_raise_inv (anchors : list Bs4.element) (acc : list (str * str)) e :
  parse_anchors anchors acc = Raise e -> e = KeyError (py "href").
Proof.
  intros H. destruct (forallb has_href anchors) eqn:E.
  - destruct (parse_anchors_ok anchors acc E) as (repos & Hp & _). congruence.
  - rewrite (parse_anchors_raise anchors acc E) in H. congruence.
Qed.

(** What [strip] removes is a run of whitespace at each end. *)
Lemma lstrip_split (s : str) :
  exists p, s = p ++ Py.lstrip s /\ forallb Py.isspace p = true.
Proof.
  induction s as [|c s (p & Hp & Hw)]; [now exists []|].
  cbn [Py.lstrip]. destruct (Py.isspace c) eqn:E.
  - exists (c :: p). cbn. rewrite E, Hw. split; [now rewrite <- Hp | reflexivity].
  - now exists [].
Qed.

Lemma strip_split (s : str) :
  exists p q, s = p ++ Py.strip s ++ q
              /\ forallb Py.isspace p = true /\ forallb Py.isspace q = true.
Proof.
  destruct (lstrip_split s) as (p & Hp & Hwp).
  destruct (lstrip_split (rev (Py.lstrip s))) as (q & Hq & Hwq).
  exists p, (rev q). unfold Py.strip, Py.rstrip. repeat split.
  - rewrite <- rev_app_distr, <- Hq, rev_involutive. exact Hp.
  - exact Hwp.
  - rewrite forallb_forall in *. intros x Hx. apply Hwq. now apply in_rev.
Qed.

Lemma strip_sublist (s : str) : Py.strip s `sublist_of` s.
Proof.
  destruct (strip_split s) as (p & q & E & _). rewrite E at 2.
  apply sublist_inserts_l, sublist_inserts_r. reflexivity.
Qed.

Lemma filter_sublist {A} (f : A -> bool) (l : list A) : List.filter f l `sublist_of` l.
Proof.
  induction l as [|x l IH]; cbn; [constructor|].
  destruct (f x); [now apply sublist_skip | now apply sublist_cons].
Qed.

Lemma concat_strip_sublist (l : list str) :
  concat (List.map Py.strip l) `sublist_of` concat l.
Proof.
  induction l as [|s l IH]; cbn; [constructor|].
  apply sublist_app; [apply strip_sublist | exact IH].
Qed.

(** The entry of one anchor: a name without spaces, made of characters of
    the text of the anchor in their order, and a link that carries the
    [href]. *)
Lemma repository_of_shape (anchor : Bs4.element) (r : str * str) :
  repository_of anchor = Ok r ->
  (32%N ∉ fst r)
  /\ (fst r `sublist_of` Bs4.get_text anchor)
  /\ exists href, Bs4.el_attrs anchor !! py "href" = Some href
                  /\ snd r = py "https://github.com" ++ href.
Proof.
  intros H. destruct (Bs4.el_attrs anchor !! py "href") as [href|] eqn:E.
  - rewrite (repository_of_href _ _ E) in H. injection H as <-. cbn [fst snd].
    repeat split; [| |eauto].
    + intros Hin. apply list_elem_of_In, filter_In in Hin as [_ Hs]. discriminate.
    + etransitivity; [apply filter_sublist|].
      rewrite get_text_strip_joined. apply concat_strip_sublist.
  - rewrite (repository_of_no_href _ E) in H. discriminate.
Qed.

(** *** What [select] selects *)

Lemma match_past_cons (c : Bs4.compound) (chain : list Bs4.compound)
      (anc : list (str * gmap str str)) :
  Bs4.match_past (c :: chain) anc = true <->
  exists pre p post,
    anc = pre ++ p :: post
    /\ Bs4.match_compound c (fst p) (snd p) = true
    /\ Bs4.match_past chain post = true.
Proof.
  induction anc as [|q anc IH].
  - split; [discriminate|]. intros (pre & p & post & E & _). now destruct pre.
  - change (Bs4.match_past (c :: chain) (q :: anc))
      with (Bs4.match_compound c (fst q) (snd q) && Bs4.match_past chain anc
            || Bs4.match_past (c :: chain) anc).
    rewrite orb_true_iff, andb_true_iff, IH. split.
    + intros [[H1 H2] | (pre & p & post & -> & H1 & H2)].
      * now exists [], q, anc.
      * now exists (q :: pre), p, post.
    + intros (pre & p & post & E & H1 & H2). destruct pre as [|q' pre]; cbn in E.
      * injection E as -> ->. now left.
      * injection E as -> ->. right. now exists pre, p, post.
Qed.

Lemma matches_selector (path : list (str * gmap str str)) (name : str) (attrs : gmap str str) :
  Bs4.matches selector path name attrs = true <->
  Py.lower name = py "a"
  /\ inside (Bs4.Compound (py "h2") [py "h3"])
            (Bs4.Compound (py "article") [py "Box-row"]) path.
Proof.
  unfold Bs4.matches, selector, inside.
  rewrite andb_true_iff, match_past_cons. unfold Bs4.match_compound at 1.
  cbn [Bs4.sel_tag Bs4.sel_classes forallb]. rewrite andb_true_r, bool_decide_eq_true.
  split; intros [Ha H]; (split; [exact Ha|]).
  - destruct H as (pre & p1 & post & -> & H1 & H2).
    apply match_past_cons in H2 as (mid & p2 & post' & -> & H2 & _).
    now exists pre, p1, mid, p2, post'.
  - destruct H as (pre & p1 & mid & p2 & post & -> & H1 & H2).
    exists pre, p1, (mid ++ p2 :: post). repeat split; [exact H1|].
    apply match_past_cons. now exists mid, p2, post.
Qed.

Lemma select_node_sound (sel : list Bs4.compound) :
  forall (n : Bs4.node) (anc : list (str * gmap str str)) (e : Bs4.element),
    In e (Bs4.select_node sel anc n) ->
    exists path, encloses path n e
                 /\ Bs4.matches sel (path ++ anc) (Bs4.el_name e) (Bs4.el_attrs e) = true.
Proof.
  fix IH 1. intros [cls s | name attrs contents] anc e H; cbn in H; [contradiction|].
  apply in_app_or in H as [H | H].
  - destruct (Bs4.matches sel anc name attrs) eqn:E; [|contradiction].
    destruct H as [<- | []]. exists []. split; [constructor | exact E].
  - assert (Hk : exists k path,
               In k contents /\ encloses path k e
               /\ Bs4.matches sel (path ++ (name, attrs) :: anc)
                     (Bs4.el_name e) (Bs4.el_attrs e) = true).
    { revert H. induction contents as [|k ks IHks]; cbn; [contradiction|].
      intros H. apply in_app_or in H as [H | H].
      - destruct (IH k _ e H) as (path & Hp & Hm).
        exists k, path. split; [now left | now split].
      - destruct (IHks H) as (k' & path & Hin & Hp & Hm).
        exists k', path. split; [now right | now split]. }
    destruct Hk as (k & path & Hin & Hp & Hm).
    exists (path ++ [(name, attrs)]). split.
    + now apply encloses_child with (k := k).
    + now rewrite <- app_assoc.
Qed.

Lemma select_node_complete (sel : list Bs4.compound) (n : Bs4.node)
      (path : list (str * gmap str str)) (e : Bs4.element) :
  encloses path n e ->
  forall anc,
    Bs4.matches sel (path ++ anc) (Bs4.el_name e) (Bs4.el_attrs e) = true ->
    In e (Bs4.select_node sel anc n).
Proof.
  induction 1 as [name attrs contents | name attrs contents k path e Hin Hp IH];
    intros anc Hm; cbn [Bs4.select_node]; apply in_or_app.
  - left. cbn in Hm. rewrite Hm. now left.
  - right. apply in_flat_map. exists k. split; [exact Hin|].
    apply IH. now rewrite <- app_assoc in Hm.
Qed.

Lemma forallb_false_In {A} (f : A -> bool) (l : list A) :
  forallb f l = false -> exists a, In a l /\ f a = false.
Proof.
  induction l as [|x l IH]; cbn; [discriminate|].
  destruct (f x) eqn:E; cbn.
  - intros H. destruct (IH H) as (a & Ha & Hf). exists a. split; [now right | exact Hf].
  - intros _. exists x. split; [now left | exact E].
Qed.

Section FurtherParser.

Variable BeautifulSoup : str -> result (list Bs4.node).

(** The parser returns what its loop returns for the tree of the text,
    and raises what the tree builder or the loop raises. *)
Lemma parse_repositories_inv self html (r : result (list (str * str))) :
  parse_repositories BeautifulSoup self html = r ->
  (exists soup, BeautifulSoup html = Ok soup /\ parse_anchors (anchors_of self soup) [] = r)
  \/ (exists e, BeautifulSoup html = Raise e /\ r = Raise e).
Proof.
  unfold parse_repositories. destruct (BeautifulSoup html) as [soup|e]; cbn [bind]; eauto.
Qed.

(** X4.  Whenever [parse_repositories] returns, the list has one entry per
    anchor it ran over, never more than the selector matched and, for a
    [max_repos] that is not negative, never more than [max_repos]; each
    name is free of space characters and made of characters of the text of
    its anchor, in their order; each link is the fixed prefix followed by
    the [href] of its anchor. *)
Theorem parse_repositories_entries self html repos :
  parse_repositories BeautifulSoup self html = Ok repos ->
  exists soup,
    BeautifulSoup html = Ok soup
    /\ length repos = length (anchors_of self soup)
    /\ (length repos <= length (Bs4.select selector soup))%nat
    /\ (0 <= max_repos self -> (length repos <= Z.to_nat (max_repos self))%nat)
    /\ Forall2 (fun a r =>
                  (32%N ∉ fst r)
                  /\ (fst r `sublist_of` Bs4.get_text a)
                  /\ exists href, Bs4.el_attrs a !! py "href" = Some href
                                  /\ snd r = py "https://github.com" ++ href)
               (anchors_of self soup) repos.
Proof.
  intros H. destruct (parse_repositories_inv _ _ _ H) as [(soup & Hs & Hp) | (e & _ & [=])].
  exists soup. split; [exact Hs|].
  destruct (parse_anchors_inv _ _ _ Hp) as (l & -> & HF). cbn [app].
  pose proof (Forall2_length _ _ _ HF) as Hlen.
  split; [now symmetry|]. split; [|split].
  - rewrite <- Hlen. unfold anchors_of.
    destruct (slice_to_prefix (max_repos self) (Bs4.select selector soup)) as [k ->].
    rewrite length_take. lia.
  - intros HM. rewrite <- Hlen. unfold anchors_of.
    rewrite slice_to_nonneg by exact HM. rewrite length_take. lia.
  - eapply Forall2_impl; [exact HF|]. intros a r Hr. now apply repository_of_shape.
Qed.

(** X5.  Raising [max_repos] only appends entries: when the parser returns
    for a limit, it returns for every smaller limit that is not negative,
    with the first entries of the same list. *)
Theorem parse_repositories_prefix self1 self2 html repos2 :
  0 <= max_repos self1 <= max_repos self2 ->
  parse_repositories BeautifulSoup self2 html = Ok repos2 ->
  parse_repositories BeautifulSoup self1 html
    = Ok (take (Z.to_nat (max_repos self1)) repos2).
Proof.
  intros HM H. destruct (parse_repositories_inv _ _ _ H) as [(soup & Hs & Hp) | (e & _ & [=])].
  unfold parse_repositories. rewrite Hs. cbn [bind].
  destruct (parse_anchors_inv _ _ _ Hp) as (l & -> & HF). cbn [app].
  assert (E : anchors_of self1 soup
              = take (Z.to_nat (max_repos self1)) (anchors_of self2 soup)).
  { unfold anchors_of. rewrite !slice_to_nonneg by lia. rewrite take_take.
    f_equal. lia. }
  rewrite E.
  apply (parse_anchors_complete _ _ (Forall2_take _ _ _ (Z.to_nat (max_repos self1)) HF) []).
Qed.

(** X12.  The parser returns a list exactly when the HTML parser builds a
    tree for the text and every anchor the loop runs over carries an
    [href].  When it raises, either the HTML parser has rejected the text
    and the error is the one it raised, or the error is the [KeyError] of
    the key [href], whichever anchor lacks it and however many entries
    came before. *)
Theorem parse_repositories_ok_iff self html :
  ((exists repos, parse_repositories BeautifulSoup self html = Ok repos) <->
   exists soup, BeautifulSoup html = Ok soup
                /\ forallb has_href (anchors_of self soup) = true)
  /\ (forall e, parse_repositories BeautifulSoup self html = Raise e ->
        BeautifulSoup html = Raise e
        \/ exists soup,
             BeautifulSoup html = Ok soup
             /\ e = KeyError (py "href")
             /\ exists anchor, In anchor (anchors_of self soup)
                               /\ Bs4.el_attrs anchor !! py "href" = None).
Proof.
  split; [split|].
  - intros [repos H].
    destruct (parse_repositories_inv _ _ _ H) as [(soup & Hs & Hp) | (e & _ & [=])].
    exists soup. split; [exact Hs|].
    destruct (forallb has_href (anchors_of self soup)) eqn:E; [reflexivity|].
    rewrite (parse_anchors_raise _ [] E) in Hp. discriminate.
  - intros (soup & Hs & E). unfold parse_repositories. rewrite Hs. cbn [bind].
    destruct (parse_anchors_ok _ [] E) as (repos & H & _). eauto.
  - intros e H.
    destruct (parse_repositories_inv _ _ _ H) as [(soup & Hs & Hp) | (e' & Hs & [= ->])];
      [right | now left].
    exists soup. split; [exact Hs|]. split; [exact (parse_anchors_raise_inv _ _ _ Hp)|].
    destruct (forallb has_href (anchors_of self soup)) eqn:E.
    + destruct (parse_anchors_ok _ [] E) as (repos & H' & _). congruence.
    + destruct (forallb_false_In _ _ E) as (a & Ha & Hh). exists a.
      split; [exact Ha | now apply has_href_false].
Qed.

(** X6.  In every tree, the selection is exactly the [a] tags that lie
    inside an [h2] tag of class [h3] that lies inside an [article] tag of
    class [Box-row], at any depth; the parser runs over such tags only. *)
Theorem selected_iff self (soup : list Bs4.node) (e : Bs4.element) :
  (In e (Bs4.select selector soup) <->
   exists n path,
     In n soup /\ encloses path n e
     /\ Py.lower (Bs4.el_name e) = py "a"
     /\ inside (Bs4.Compound (py "h2") [py "h3"])
               (Bs4.Compound (py "article") [py "Box-row"]) path)
  /\ (In e (anchors_of self soup) -> In e (Bs4.select selector soup)).
Proof.
  split.
  - unfold Bs4.select. rewrite in_flat_map. split.
    + intros (n & Hn & He).
      destruct (select_node_sound selector n [] e He) as (path & Hp & Hm).
      rewrite app_nil_r in Hm. apply matches_selector in Hm as [Ha Hi].
      now exists n, path.
    + intros (n & path & Hn & Hp & Ha & Hi). exists n. split; [exact Hn|].
      apply (select_node_complete selector n path e Hp []).
      rewrite app_nil_r. apply matches_selector. now split.
  - unfold anchors_of.
    destruct (slice_to_prefix (max_repos self) (Bs4.select selector soup)) as [k ->].
    intros H. apply list_elem_of_In, elem_of_take in H as (j & Hj & _).
    eapply list_elem_of_In, list_elem_of_lookup_2. exact Hj.
Qed.

End FurtherParser.

(** ** [run] and the button of [app.py] *)

Lemma fetch_html_ok_inv self w html w' :
  fetch_html self w = (Ok html, w') -> w' = w.
Proof. intros H. pose proof (fetch_html_world self w) as E. now rewrite H in E. Qed.

Lemma fetch_html_raise_inv self w e w' :
  fetch_html self w = (Raise e, w') -> w' = w.
Proof. intros H. pose proof (fetch_html_world self w) as E. now rewrite H in E. Qed.

Lemma st_markdown_all_world (repos : list (str * str)) :
  forall w,
    st_markdown_all repos w =
      (Ok tt, World (net w) (files w) (dirs w) (stdout w)
                    (page w ++ List.map markdown_line repos)).
Proof.
  induction repos as [|[name link] repos IH]; intros w.
  - cbn. unfold io_ret. rewrite app_nil_r. now destruct w.
  - cbn [st_markdown_all List.map]. unfold io_bind, st_show. rewrite IH.
    cbn [net files dirs stdout page]. now rewrite <- app_assoc.
Qed.

Section FurtherRun.

Variable BeautifulSoup : str -> result (list Bs4.node).

(** The three stages that [run] and the button share. *)
Lemma run_stages self w :
  run BeautifulSoup self w =
    match fetch_html self w with
    | (Ok html, _) =>
        match parse_repositories BeautifulSoup self html with
        | Ok repos =>
            match export_to_csv self repos w with
            | (Ok _, w2) =>
                Os.print (py "Scraped top " ++ Requests.str_of_int (max_repos self)
                          ++ py " repositories to: " ++ output_file self) w2
            | (Raise e, w2) => (Raise e, w2)
            end
        | Raise e => (Raise e, w)
        end
    | (Raise e, _) => (Raise e, w)
    end.
Proof.
  unfold run, io_bind, io_lift.
  destruct (fetch_html self w) as [[html|e] w1] eqn:Hf.
  - rewrite (fetch_html_ok_inv _ _ _ _ Hf).
    destruct (parse_repositories BeautifulSoup self html); [|reflexivity].
    now destruct (export_to_csv self a w) as [[[]|e] w2].
  - now rewrite (fetch_html_raise_inv _ _ _ _ Hf).
Qed.

Lemma on_button_stages w :
  on_button BeautifulSoup w =
    match fetch_html default_scraper w with
    | (Ok html, _) =>
        match parse_repositories BeautifulSoup default_scraper html with
        | Ok repos =>
            match export_to_csv default_scraper repos w with
            | (Ok _, w2) =>
                (Ok tt, World (net w2) (files w2) (dirs w2) (stdout w2)
                              (page w2
                               ++ py "Scraping completed. Top trending repositories:"
                                  :: List.map markdown_line repos))
            | (Raise e, w2) => (Raise e, w2)
            end
        | Raise e => (Raise e, w)
        end
    | (Raise e, _) => (Raise e, w)
    end.
Proof.
  unfold on_button, io_bind, io_lift.
  destruct (fetch_html default_scraper w) as [[html|e] w1] eqn:Hf.
  - rewrite (fetch_html_ok_inv _ _ _ _ Hf).
    destruct (parse_repositories BeautifulSoup default_scraper html); [|reflexivity].
    destruct (export_to_csv default_scraper a w) as [[[]|e] w2]; [|reflexivity].
    unfold st_show. rewrite st_markdown_all_world. cbn [net files dirs stdout page].
    now rewrite <- app_assoc.
  - now rewrite (fetch_html_raise_inv _ _ _ _ Hf).
Qed.

(** X7.  A run that succeeds has fetched a text, parsed it into entries and
    exported them: the output file holds the text of the header row and of
    these entries, and reads back as the header and the entries when their
    fields are within the field size limit of the reader; no other file
    has changed; and one line is printed, which names [max_repos] (not the
    number of entries written) and the output file. *)
Theorem run_success self w w' :
  run BeautifulSoup self w = (Ok tt, w') ->
  exists html repos,
    fetch_html self w = (Ok html, w)
    /\ parse_repositories BeautifulSoup self html = Ok repos
    /\ Os.read_text (output_file self) w' = Ok (table_text (header :: rows_of repos))
    /\ (repos_within_limit repos = true ->
          read_table w' (output_file self) = Ok (header :: rows_of repos))
    /\ (forall k, k <> Os.key (output_file self) -> files w' !! k = files w !! k)
    /\ stdout w' = stdout w ++ [py "Scraped top " ++ Requests.str_of_int (max_repos self)
                                ++ py " repositories to: " ++ output_file self]
    /\ page w' = page w.
Proof.
  rewrite run_stages.
  destruct (fetch_html self w) as [[html|e] w1] eqn:Hf; [|discriminate].
  pose proof (fetch_html_ok_inv _ _ _ _ Hf) as ->.
  destruct (parse_repositories BeautifulSoup self html) as [repos|e] eqn:Hp; [|discriminate].
  destruct (export_to_csv self repos w) as [[[]|e] w2] eqn:He; [|discriminate].
  unfold Os.print. intros Hw. apply (f_equal snd) in Hw. cbn [snd] in Hw. subst w'.
  exists html, repos.
  destruct (export_to_csv_world _ _ _ _ _ He) as (_ & Hs & Hpg & _ & _ & Hfr).
  assert (Hr : Os.read_text (output_file self)
                 (World (net w2) (files w2) (dirs w2)
                    (stdout w2 ++ [py "Scraped top " ++ Requests.str_of_int (max_repos self)
                                   ++ py " repositories to: " ++ output_file self])
                    (page w2))
               = Ok (table_text (header :: rows_of repos)))
    by (apply (export_to_csv_read _ _ _ _ He); reflexivity).
  cbn [files stdout page].
  split; [reflexivity|]. split; [exact Hp|]. split; [exact Hr|].
  split; [|split; [exact Hfr | split; [now rewrite Hs | exact Hpg]]].
  intros Hlim. unfold read_table. rewrite Hr. cbn [bind].
  apply reader_table_text. now apply rows_within_limit.
Qed.


(** X9.  The button does to the file system what [run] does with the
    default scraper: both succeed, or both fail with the same error, and
    they leave the same files and directories.  They differ in what they
    report: the button prints nothing, [run] shows nothing on the page. *)
Theorem on_button_like_run w :
  fst (on_button BeautifulSoup w) = fst (run BeautifulSoup default_scraper w)
  /\ files (snd (on_button BeautifulSoup w)) = files (snd (run BeautifulSoup default_scraper w))
  /\ dirs (snd (on_button BeautifulSoup w)) = dirs (snd (run BeautifulSoup default_scraper w))
  /\ stdout (snd (on_button BeautifulSoup w)) = stdout w
  /\ page (snd (run BeautifulSoup default_scraper w)) = page w.
Proof.
  rewrite on_button_stages, run_stages.
  destruct (fetch_html default_scraper w) as [[html|e0] w1]; [|repeat split].
  destruct (parse_repositories BeautifulSoup default_scraper html) as [repos|e1];
    [|repeat split].
  destruct (export_to_csv default_scraper repos w) as [[[]|e2] w2] eqn:He;
    destruct (export_to_csv_world _ _ _ _ _ He) as (_ & Hs & Hpg & _);
    repeat split; assumption.
Qed.

(** X10.  When the button succeeds, the page gets the success line and then
    one line [- [name](link)] per entry, in the order of the entries, at
    most five of them; the output file holds the text of the header row
    and of the same entries, and reads back as the header and the entries
    when their fields are within the field size limit of the reader. *)
Theorem on_button_success w w' :
  on_button BeautifulSoup w = (Ok tt, w') ->
  exists html repos,
    fetch_html default_scraper w = (Ok html, w)
    /\ parse_repositories BeautifulSoup default_scraper html = Ok repos
    /\ (length repos <= 5)%nat
    /\ page w' = page w ++ py "Scraping completed. Top trending repositories:"
                           :: List.map markdown_line repos
    /\ Os.read_text (py "data/trending_repos.csv") w'
       = Ok (table_text (header :: rows_of repos))
    /\ (repos_within_limit repos = true ->
          read_table w' (py "data/trending_repos.csv") = Ok (header :: rows_of repos)).
Proof.
  rewrite on_button_stages.
  destruct (fetch_html default_scraper w) as [[html|e] w1] eqn:Hf; [|discriminate].
  pose proof (fetch_html_ok_inv _ _ _ _ Hf) as ->.
  destruct (parse_repositories BeautifulSoup default_scraper html) as [repos|e] eqn:Hp;
    [|discriminate].
  destruct (export_to_csv default_scraper repos w) as [[[]|e] w2] eqn:He; [|discriminate].
  intros [= <-]. exists html, repos.
  destruct (export_to_csv_world _ _ _ _ _ He) as (_ & _ & Hpg & _).
  assert (Hr : Os.read_text (py "data/trending_repos.csv")
                 (World (net w2) (files w2) (dirs w2) (stdout w2)
                    (page w2 ++ py "Scraping completed. Top trending repositories:"
                             :: List.map markdown_line repos))
               = Ok (table_text (header :: rows_of repos)))
    by (apply (export_to_csv_read _ _ _ _ He); reflexivity).
  cbn [page].
  split; [reflexivity|]. split; [exact Hp|].
  split; [|split; [now rewrite Hpg | split; [exact Hr|]]].
  - destruct (parse_repositories_inv _ _ _ _ Hp) as [(soup & Hs & Ha) | (e & _ & [=])].
    destruct (parse_anchors_inv _ _ _ Ha) as (l & -> & HF). cbn [app].
    rewrite <- (Forall2_length _ _ _ HF). unfold anchors_of.
    rewrite slice_to_nonneg by (cbn; lia). rewrite length_take. cbn. lia.
  - intros Hlim. unfold read_table. rewrite Hr. cbn [bind].
    apply reader_table_text. now apply rows_within_limit.
Qed.

End FurtherRun.

(** ** The text of the exported file *)

Lemma join_append_plain (f : str) :
  existsb Csv.special f = false -> Csv.join_append f = f.
Proof. intros H. unfold Csv.join_append. now rewrite H. Qed.

Lemma rows_plain (repos : list (str * str)) :
  forallb (fun repo => negb (existsb Csv.special (fst repo))
                       && negb (existsb Csv.special (snd repo))) repos = true ->
  table_text (rows_of repos)
  = flat_map (fun repo => fst repo ++ [44%N] ++ snd repo ++ [13%N; 10%N]) repos.
Proof.
  induction repos as [|[name link] repos IH]; intros Hplain; [reflexivity|].
  cbn [forallb fst snd] in Hplain. apply andb_prop in Hplain as [Hr Hrest].
  apply andb_prop in Hr as [Hn Hl]. apply negb_true_iff in Hn, Hl.
  unfold table_text in *. cbn [rows_of List.map concat flat_map fst snd].
  fold (rows_of repos). rewrite (IH Hrest). f_equal.
  unfold Csv.record_text. rewrite bool_decide_eq_false_2 by discriminate.
  cbn [Csv.join_fields]. rewrite (join_append_plain _ Hn), (join_append_plain _ Hl).
  now rewrite <- !app_assoc.
Qed.

(** X11.  When no name and no link holds a comma, a double quote or a line
    break, the exported file is plain: the header line, then one line
    [name,link] per entry, each ended by a carriage return and a line
    feed, with no quoting. *)
Theorem export_to_csv_plain self repos w w' :
  export_to_csv self repos w = (Ok tt, w') ->
  forallb (fun repo => negb (existsb Csv.special (fst repo))
                       && negb (existsb Csv.special (snd repo))) repos = true ->
  files w' !! Os.key (output_file self) = Some (plain_text repos)
  /\ Os.read_text (output_file self) w' = Ok (plain_text repos).
Proof.
  intros H Hplain.
  assert (E : table_text (header :: rows_of repos) = plain_text repos).
  { unfold plain_text. rewrite <- (rows_plain repos Hplain).
    unfold table_text. cbn [List.map concat].
    change (Csv.record_text header) with (py "Repository Name,Repository Link" ++ [13%N; 10%N]).
    now rewrite <- app_assoc. }
  split.
  - destruct (export_to_csv_inv _ _ _ _ H) as (w0 & _ & _ & _ & ->).
    cbn [files]. rewrite lookup_insert_eq. now rewrite E.
  - rewrite <- E. apply (export_to_csv_read _ _ _ _ H); reflexivity.
Qed.

(** ** The further properties on sample inputs *)

Lemma init_output_file_witness :
  output_file (init (py "https://github.com/trending") (py "data") 5)
  = py "data/trending_repos.csv".
Proof.
  destruct (init_output_file (py "https://github.com/trending") (py "data") 5)
    as (_ & _ & _ & _ & H & _).
  apply H; [discriminate | vm_compute; discriminate].
Defined.

(** An export into [a/b], neither directory being there. *)
Lemma export_to_csv_frame_witness :
  export_to_csv (init (py "u") (py "a/b") 5) sample_repos world_d_f
  = (Ok tt, snd (export_to_csv (init (py "u") (py "a/b") 5) sample_repos world_d_f))
  /\ dirs (snd (export_to_csv (init (py "u") (py "a/b") 5) sample_repos world_d_f))
     = list_to_set [py "a"; py "a/b"; py "d"]
  /\ files (snd (export_to_csv (init (py "u") (py "a/b") 5) sample_repos world_d_f)) !! py "f"
     = Some (py "text")
  /\ stdout (snd (export_to_csv (init (py "u") (py "a/b") 5) sample_repos world_d_f)) = [].
Proof.
  assert (H : export_to_csv (init (py "u") (py "a/b") 5) sample_repos world_d_f
              = (Ok tt, snd (export_to_csv (init (py "u") (py "a/b") 5) sample_repos world_d_f)))
    by (vm_compute; reflexivity).
  destruct (export_to_csv_frame _ _ _ _ H) as (Hf & _ & _ & _ & Hs & _).
  split; [exact H|]. split; [vm_compute; reflexivity|]. split.
  - rewrite Hf; [reflexivity | vm_compute; discriminate].
  - rewrite Hs. reflexivity.
Defined.

Lemma export_to_csv_last_wins_witness :
  export_to_csv default_scraper sample_repos world_empty = (Ok tt, world_exported)
  /\ export_to_csv default_scraper sample_repos2 world_exported = (Ok tt, world_exported_twice)
  /\ export_to_csv default_scraper sample_repos2 world_empty = (Ok tt, world_exported_twice).
Proof.
  assert (H1 : export_to_csv default_scraper sample_repos world_empty = (Ok tt, world_exported))
    by (vm_compute; reflexivity).
  assert (H2 : export_to_csv default_scraper sample_repos2 world_exported
               = (Ok tt, world_exported_twice)) by (vm_compute; reflexivity).
  split; [exact H1|]. split; [exact H2|].
  exact (proj1 (export_to_csv_last_wins default_scraper sample_repos sample_repos2
                  world_empty world_exported world_exported_twice H1 H2)).
Defined.

Lemma parse_repositories_entries_witness :
  parse_repositories bs_two (with_max 2) html_two
    = Ok [repo_gpt; (py "owner/repo", py "https://github.com/owner/repo")]
  /\ exists soup,
       bs_two html_two = Ok soup
       /\ (length [repo_gpt; (py "owner/repo", py "https://github.com/owner/repo")]
           <= length (Bs4.select selector soup))%nat.
Proof.
  assert (H : parse_repositories bs_two (with_max 2) html_two
              = Ok [repo_gpt; (py "owner/repo", py "https://github.com/owner/repo")])
    by (vm_compute; reflexivity).
  split; [exact H|].
  destruct (parse_repositories_entries bs_two (with_max 2) html_two _ H)
    as (soup & Hs & _ & Hl & _).
  exists soup. split; [exact Hs | exact Hl].
Defined.

Lemma parse_repositories_prefix_witness :
  0 <= max_repos (with_max 1) <= max_repos (with_max 2)
  /\ parse_repositories bs_two (with_max 2) html_two
     = Ok [repo_gpt; (py "owner/repo", py "https://github.com/owner/repo")]
  /\ parse_repositories bs_two (with_max 1) html_two = Ok [repo_gpt].
Proof.
  assert (HM : 0 <= max_repos (with_max 1) <= max_repos (with_max 2)) by (cbn; lia).
  assert (H : parse_repositories bs_two (with_max 2) html_two
              = Ok [repo_gpt; (py "owner/repo", py "https://github.com/owner/repo")])
    by (vm_compute; reflexivity).
  split; [exact HM|]. split; [exact H|].
  exact (parse_repositories_prefix bs_two (with_max 1) (with_max 2) html_two _ HM H).
Defined.

(** A page whose anchors carry an [href], a page with an anchor that has
    none, and a text the HTML parser rejects. *)
Lemma parse_repositories_ok_iff_witness :
  (exists repos, parse_repositories bs_two (with_max 2) html_two = Ok repos)
  /\ parse_repositories bs_bare (with_max 1) html_bare = Raise (KeyError (py "href"))
  /\ parse_repositories bs_rejecting (with_max 1) html_rejected = Raise rejection.
Proof.
  split; [|split].
  - apply (proj2 (proj1 (parse_repositories_ok_iff bs_two (with_max 2) html_two))).
    exists soup_two. split; vm_compute; reflexivity.
  - destruct (parse_repositories bs_bare (with_max 1) html_bare) as [repos|e] eqn:E.
    + vm_compute in E. discriminate.
    + f_equal.
      destruct (proj2 (parse_repositories_ok_iff bs_bare (with_max 1) html_bare) e E)
        as [Hr | (soup & _ & He & _)]; [vm_compute in Hr; discriminate | exact He].
  - destruct (parse_repositories bs_rejecting (with_max 1) html_rejected) as [repos|e] eqn:E.
    + vm_compute in E. discriminate.
    + f_equal.
      destruct (proj2 (parse_repositories_ok_iff bs_rejecting (with_max 1) html_rejected) e E)
        as [Hr | (soup & Hs & _)]; [|vm_compute in Hs; discriminate].
      vm_compute in Hr. injection Hr as <-. reflexivity.
Defined.

Lemma selected_iff_witness :
  bs_gpt_bare html_gpt_bare = Ok soup_gpt_bare
  /\ In anchor_gpt (anchors_of (with_max 1) soup_gpt_bare)
  /\ exists n path,
       In n soup_gpt_bare /\ encloses path n anchor_gpt
       /\ Py.lower (Bs4.el_name anchor_gpt) = py "a"
       /\ inside (Bs4.Compound (py "h2") [py "h3"])
                 (Bs4.Compound (py "article") [py "Box-row"]) path.
Proof.
  assert (Hs : bs_gpt_bare html_gpt_bare = Ok soup_gpt_bare) by (vm_compute; reflexivity).
  assert (H : In anchor_gpt (anchors_of (with_max 1) soup_gpt_bare))
    by (vm_compute; left; reflexivity).
  destruct (selected_iff (with_max 1) soup_gpt_bare anchor_gpt) as [Hiff Hsub].
  split; [exact Hs|]. split; [exact H|]. exact (proj1 Hiff (Hsub H)).
Defined.

Lemma run_success_witness :
  run bs_gpt_bare (with_max 1) world_empty = (Ok tt, world_after_run)
  /\ read_table world_after_run (py "data/trending_repos.csv")
     = Ok [[py "Repository Name"; py "Repository Link"];
           [py "OpenAI/gpt"; py "https://github.com/owner/repo"]]
  /\ stdout world_after_run = [py "Scraped top 1 repositories to: data/trending_repos.csv"].
Proof.
  assert (H : run bs_gpt_bare (with_max 1) world_empty = (Ok tt, world_after_run))
    by (vm_compute; reflexivity).
  destruct (run_success bs_gpt_bare (with_max 1) world_empty world_after_run H)
    as (html & repos & Hf & Hp & _ & Hr & _ & Hs & _).
  assert (Eh : html = html_gpt_bare)
    by (vm_compute in Hf; injection Hf as <-; vm_compute; reflexivity).
  subst html.
  assert (Er : repos = [repo_gpt])
    by (vm_compute in Hp; injection Hp as <-; vm_compute; reflexivity).
  subst repos. split; [exact H|]. split; [apply Hr; vm_compute; reflexivity | exact Hs].
Defined.


Lemma on_button_success_witness :
  on_button bs_trending (world_serving html_trending) = (Ok tt, world_after_button)
  /\ page world_after_button
     = [py "Scraping completed. Top trending repositories:";
        py "- [owner/repo](https://github.com/owner/repo)"].
Proof.
  assert (H : on_button bs_trending (world_serving html_trending) = (Ok tt, world_after_button))
    by (vm_compute; reflexivity).
  destruct (on_button_success bs_trending (world_serving html_trending) world_after_button H)
    as (html & repos & Hf & Hp & _ & Hpg & _).
  assert (Eh : html = html_trending)
    by (vm_compute in Hf; injection Hf as <-; vm_compute; reflexivity).
  subst html.
  assert (Er : repos = [(py "owner/repo", py "https://github.com/owner/repo")])
    by (vm_compute in Hp; injection Hp as <-; vm_compute; reflexivity).
  subst repos. split; [exact H | exact Hpg].
Defined.

Lemma on_button_like_run_witness :
  fst (on_button bs_gpt_bare world_timing_out) = fst (run bs_gpt_bare default_scraper world_timing_out)
  /\ stdout (snd (on_button bs_trending (world_serving html_trending))) = [].
Proof.
  destruct (on_button_like_run bs_gpt_bare world_timing_out) as (H1 & _).
  destruct (on_button_like_run bs_trending (world_serving html_trending)) as (_ & _ & _ & H2 & _).
  split; [exact H1 | exact H2].
Defined.

Lemma export_to_csv_plain_witness :
  export_to_csv default_scraper sample_repos2 world_empty = (Ok tt, world_exported_twice)
  /\ Os.read_text (py "data/trending_repos.csv") world_exported_twice
     = Ok (py "Repository Name,Repository Link" ++ [13%N; 10%N]
           ++ py "baz,https://x/baz" ++ [13%N; 10%N]).
Proof.
  assert (H : export_to_csv default_scraper sample_repos2 world_empty
              = (Ok tt, world_exported_twice)) by (vm_compute; reflexivity).
  split; [exact H|].
  exact (proj2 (export_to_csv_plain default_scraper sample_repos2 world_empty
                  world_exported_twice H eq_refl)).
Defined.
